(** * feishubot: a shallow embedding of [feishubot.py]

    The module is a thin client of the Feishu messaging API.  It is
    modelled here as a state-and-exception monad over a [Machine] that
    holds the Python objects the module mutates (the [TenantToken]
    descriptor and the bot's [user_id]) together with the outside world
    (the requests posted so far, the answers of the remote service, the
    readings of the wall clock, the boundaries drawn for multipart forms
    and the warnings logged).

    Conventions.
    - A Python [str] is a [string]; its characters are the code points
      below 256.
    - The values exchanged with the service are the Python objects that
      [json] decoding produces; [None] is [JNull], a [dict] is an
      insertion-ordered association list.  Numbers are integers.
    - A [datetime] is the number of microseconds (the resolution of
      [datetime.now()]) since [datetime.min], the first instant of year 1;
      a [timedelta] is a number of microseconds.  Both have the range
      Python gives them, and leaving it is an [OverflowError].
    - Time passes: the wall clock is read at an instant of the run, and
      the run moves to the next instant with every reading and every
      request.
    - A method is called with positional arguments.  What its body does
      with a value that is not of the type its signature names depends on
      the libraries the value reaches; it is left open, as a parameter of
      the environment, and so are the attributes Python gives every object.
    - An exception leaves every mutation done before it in place.

    The file has the embedding first (values, the JSON codec, requests,
    the machine, the environment, the functions and the two classes),
    then the vocabulary
    of the statements, then the properties, each group closed by the
    theorem it serves, and last the runs on concrete machines. *)

From Stdlib Require Import String Ascii List ZArith Bool Arith Lia.
From Stdlib Require Import DecimalString DecimalZ.
From Stdlib Require DecimalPos DecimalFacts.
Import ListNotations.
Local Open Scope list_scope.
Local Open Scope string_scope.
Set Warnings "-register-all".

(* ================================================================= *)
(** ** Python values *)

Inductive json : Type :=
| JNull
| JBool (b : bool)
| JNum (n : Z)
| JStr (s : string)
| JList (l : list json)
| JDict (d : list (string * json)).

Inductive exn : Type :=
| ValueError (msg : string)
| KeyError (key : string)
| TypeError
| AttributeError (msg : string)
| OverflowError
| ConnectionError
| Cv2Error.

Inductive result (A : Type) : Type :=
| Ok (a : A)
| Raise (e : exn).
Arguments Ok {A} a.
Arguments Raise {A} e.

Definition nonempty (s : string) : bool :=
  match s with EmptyString => false | String _ _ => true end.

(** Truth value of an object, as [if x:] and [not x] take it. *)
Definition truthy (v : json) : bool :=
  match v with
  | JNull => false
  | JBool b => b
  | JNum n => negb (n =? 0)%Z
  | JStr s => nonempty s
  | JList l => match l with [] => false | _ :: _ => true end
  | JDict d => match d with [] => false | _ :: _ => true end
  end.

(** An environment variable as [os.getenv] returns it: [None] or a [str]. *)
Definition getenv_value (o : option string) : json :=
  match o with Some s => JStr s | None => JNull end.

Definition present (o : option string) : bool := truthy (getenv_value o).

Definition py_all (l : list bool) : bool := forallb (fun b => b) l.
Definition py_any (l : list bool) : bool := existsb (fun b => b) l.

(** *** Dictionaries: insertion-ordered, one entry per key *)

Section Dict.
Context {V : Type}.

Fixpoint dict_get (k : string) (d : list (string * V)) : option V :=
  match d with
  | [] => None
  | (k', v) :: d' => if (k =? k')%string then Some v else dict_get k d'
  end.

(** [d[k] = v]: an existing key keeps its place, a new one goes last. *)
Fixpoint dict_set (k : string) (v : V) (d : list (string * V))
  : list (string * V) :=
  match d with
  | [] => [(k, v)]
  | (k', v') :: d' =>
      if (k =? k')%string then (k', v) :: d' else (k', v') :: dict_set k v d'
  end.

Definition dict_has (k : string) (d : list (string * V)) : bool :=
  match dict_get k d with Some _ => true | None => false end.

(** [a | b] on two dicts: a copy of [a] updated with the items of [b]. *)
Definition dict_merge (a b : list (string * V)) : list (string * V) :=
  fold_left (fun acc kv => dict_set (fst kv) (snd kv) acc) b a.
End Dict.

(** [x[key]] for a string key. *)
Definition getitem (x : json) (key : string) : result json :=
  match x with
  | JDict d => match dict_get key d with
               | Some v => Ok v
               | None => Raise (KeyError key)
               end
  | _ => Raise TypeError
  end.

(** [key in x] for a string key. *)
Definition contains (key : string) (x : json) : result bool :=
  match x with
  | JDict d => Ok (dict_has key d)
  | JList l =>
      Ok (existsb (fun e => match e with
                            | JStr s => (s =? key)%string
                            | _ => false
                            end) l)
  | JStr s => Ok (match index 0 key s with Some _ => true | None => false end)
  | _ => Raise TypeError
  end.

Fixpoint chars (s : string) : list json :=
  match s with
  | EmptyString => []
  | String c r => JStr (String c EmptyString) :: chars r
  end.

(** The items a [for] loop over [x] visits. *)
Definition iterate (x : json) : result (list json) :=
  match x with
  | JList l => Ok l
  | JDict d => Ok (map (fun kv => JStr (fst kv)) d)
  | JStr s => Ok (chars s)
  | _ => Raise TypeError
  end.

Definition b2z (b : bool) : Z := if b then 1%Z else 0%Z.

(** [a | b]: dict union, or the bitwise or of integers and booleans. *)
Definition py_or (a b : json) : result json :=
  match a, b with
  | JDict x, JDict y => Ok (JDict (dict_merge x y))
  | JBool x, JBool y => Ok (JBool (x || y))
  | JNum x, JNum y => Ok (JNum (Z.lor x y))
  | JBool x, JNum y => Ok (JNum (Z.lor (b2z x) y))
  | JNum x, JBool y => Ok (JNum (Z.lor x (b2z y)))
  | _, _ => Raise TypeError
  end.

(** A [timedelta] spans at most 999999999 days either way; [n] seconds
    are [n // 86400] days and a rest below one day. *)
Definition timedelta_in_range (n : Z) : bool :=
  (Z.abs (n / 86400) <=? 999999999)%Z.

(** [timedelta(seconds=x)], in microseconds. *)
Definition timedelta_seconds (x : json) : result Z :=
  let of_int (n : Z) :=
    if timedelta_in_range n then Ok (n * 1000000)%Z else Raise OverflowError in
  match x with
  | JNum n => of_int n
  | JBool b => of_int (b2z b)
  | _ => Raise TypeError
  end.

(** [datetime.max], 9999-12-31 23:59:59.999999, counted from
    [datetime.min]: 3652059 days less one microsecond. *)
Definition datetime_max : Z := 315537897599999999.

Definition datetime_in_range (t : Z) : bool :=
  ((0 <=? t) && (t <=? datetime_max))%Z.

(** [delta + t] for a [timedelta] and a [datetime]. *)
Definition datetime_add (delta t : Z) : result Z :=
  if datetime_in_range (delta + t) then Ok (delta + t)%Z
  else Raise OverflowError.

(** [os.path.basename] (POSIX): what follows the last slash. *)
Fixpoint has_slash (p : string) : bool :=
  match p with
  | EmptyString => false
  | String c r => (c =? "/")%char || has_slash r
  end.

Fixpoint basename (p : string) : string :=
  match p with
  | EmptyString => EmptyString
  | String c r =>
      if has_slash r then basename r
      else if (c =? "/")%char then r else p
  end.

(* ================================================================= *)
(** ** [json.dumps] and [json.loads]

    The standard encoder with its default settings: separators [", "]
    and [": "], [ensure_ascii] on.  The decoder is the strict one. *)

Module Json.

Definition dquote : ascii := "034"%char.
Definition backslash : ascii := "\"%char.

Definition hex_digit (n : N) : ascii :=
  if (n <? 10)%N then ascii_of_N (48 + n) else ascii_of_N (87 + n).

(** One character of a string literal, as [ESCAPE_ASCII] rewrites it. *)
Definition escape_char (c : ascii) : string :=
  let n := N_of_ascii c in
  if (c =? dquote)%char then String backslash (String dquote EmptyString)
  else if (c =? backslash)%char then String backslash (String backslash EmptyString)
  else if (n =? 8)%N then String backslash "b"
  else if (n =? 12)%N then String backslash "f"
  else if (n =? 10)%N then String backslash "n"
  else if (n =? 13)%N then String backslash "r"
  else if (n =? 9)%N then String backslash "t"
  else if ((32 <=? n) && (n <=? 126))%N then String c EmptyString
  else String backslash
         (String "u" (String "0" (String "0"
            (String (hex_digit (n / 16)) (String (hex_digit (n mod 16)) EmptyString))))).

Fixpoint escape (s : string) : string :=
  match s with
  | EmptyString => EmptyString
  | String c r => escape_char c ++ escape r
  end.

Definition quote (s : string) : string :=
  String dquote (escape s ++ String dquote EmptyString).

Fixpoint join (sep : string) (l : list string) : string :=
  match l with
  | [] => EmptyString
  | [x] => x
  | x :: r => x ++ sep ++ join sep r
  end.

Fixpoint dumps (j : json) : string :=
  match j with
  | JNull => "null"
  | JBool true => "true"
  | JBool false => "false"
  | JNum n => NilZero.string_of_int (Z.to_int n)
  | JStr s => quote s
  | JList l => "[" ++ join ", " (map dumps l) ++ "]"
  | JDict d =>
      "{" ++ join ", " (map (fun kv => quote (fst kv) ++ ": " ++ dumps (snd kv)) d)
          ++ "}"
  end.

(** *** The decoder *)

Definition is_ws (c : ascii) : bool :=
  let n := N_of_ascii c in
  ((n =? 32) || (n =? 9) || (n =? 10) || (n =? 13))%N.

Fixpoint skip_ws (s : string) : string :=
  match s with
  | String c r => if is_ws c then skip_ws r else s
  | EmptyString => s
  end.

Definition hex_value (c : ascii) : option N :=
  let n := N_of_ascii c in
  if ((48 <=? n) && (n <=? 57))%N then Some (n - 48)%N
  else if ((97 <=? n) && (n <=? 102))%N then Some (n - 87)%N
  else if ((65 <=? n) && (n <=? 70))%N then Some (n - 55)%N
  else None.

(** The body of a string literal, after its opening quote. *)
Fixpoint parse_string (s : string) : option (string * string) :=
  match s with
  | EmptyString => None
  | String c r =>
      if (c =? dquote)%char then Some (EmptyString, r)
      else if (c =? backslash)%char then
        match r with
        | String e r1 =>
            let lit (x : ascii) :=
              match parse_string r1 with
              | Some (t, r2) => Some (String x t, r2)
              | None => None
              end in
            if (e =? dquote)%char then lit dquote
            else if (e =? backslash)%char then lit backslash
            else if (e =? "/")%char then lit "/"%char
            else if (e =? "b")%char then lit (ascii_of_N 8)
            else if (e =? "f")%char then lit (ascii_of_N 12)
            else if (e =? "n")%char then lit (ascii_of_N 10)
            else if (e =? "r")%char then lit (ascii_of_N 13)
            else if (e =? "t")%char then lit (ascii_of_N 9)
            else if (e =? "u")%char then
              match r1 with
              | String h3 (String h2 (String h1 (String h0 r2))) =>
                  match hex_value h3, hex_value h2, hex_value h1, hex_value h0 with
                  | Some a, Some b, Some c', Some d =>
                      let n := (((a * 16 + b) * 16 + c') * 16 + d)%N in
                      if (n <? 256)%N then
                        match parse_string r2 with
                        | Some (t, r3) => Some (String (ascii_of_N n) t, r3)
                        | None => None
                        end
                      else None
                  | _, _, _, _ => None
                  end
              | _ => None
              end
            else None
        | EmptyString => None
        end
      else if (N_of_ascii c <? 32)%N then None
      else
        match parse_string r with
        | Some (t, r1) => Some (String c t, r1)
        | None => None
        end
  end.

Definition is_digit (c : ascii) : bool :=
  let n := N_of_ascii c in ((48 <=? n) && (n <=? 57))%N.

Fixpoint take_digits (s : string) : string * string :=
  match s with
  | String c r =>
      if is_digit c then let (d, r') := take_digits r in (String c d, r')
      else (EmptyString, s)
  | EmptyString => (EmptyString, s)
  end.

(** [s] without its first character, when that is [c]. *)
Definition next_is (c : ascii) (s : string) : option string :=
  match s with
  | String c' r => if (c' =? c)%char then Some r else None
  | EmptyString => None
  end.

Definition leading_zero (ds : string) : bool :=
  match ds with
  | String c (String _ _) => (c =? "0")%char
  | _ => false
  end.

Definition floatish (rest : string) : bool :=
  match rest with
  | String c _ => ((c =? ".") || (c =? "e") || (c =? "E"))%char
  | EmptyString => false
  end.

(** An integer literal: an optional minus sign, then 0 or a digit
    sequence without a leading 0.  A fraction or an exponent after it
    would make a float, which the model leaves out. *)
Definition parse_int (s : string) : option (Z * string) :=
  let (neg, s1) :=
    match next_is "-" s with
    | Some r => (true, r)
    | None => (false, s)
    end in
  let (ds, rest) := take_digits s1 in
  if negb (nonempty ds) || leading_zero ds || floatish rest then None
  else match NilZero.uint_of_string ds with
       | Some u => Some (if neg then (- Z.of_uint u)%Z else Z.of_uint u, rest)
       | None => None
       end.

Fixpoint expect (lit : string) (s : string) : option string :=
  match lit with
  | EmptyString => Some s
  | String c l =>
      match next_is c s with
      | Some s' => expect l s'
      | None => None
      end
  end.

(** [dict(pairs)]: a key that comes again keeps its place and takes
    the later value. *)
Definition dict_of_pairs (pairs : list (string * json)) : list (string * json) :=
  fold_left (fun acc kv => dict_set (fst kv) (snd kv) acc) pairs [].

Fixpoint parse_value (fuel : nat) (s : string) : option (json * string) :=
  match fuel with
  | O => None
  | S fuel' =>
      match s with
      | EmptyString => None
      | String c r =>
          if (c =? dquote)%char then
            match parse_string r with
            | Some (t, r') => Some (JStr t, r')
            | None => None
            end
          else if (c =? "{")%char then
            match next_is "}" (skip_ws r) with
            | Some r' => Some (JDict [], r')
            | None => parse_members fuel' (skip_ws r) []
            end
          else if (c =? "[")%char then
            match next_is "]" (skip_ws r) with
            | Some r' => Some (JList [], r')
            | None => parse_elements fuel' (skip_ws r) []
            end
          else if (c =? "n")%char then
            match expect "ull" r with Some r' => Some (JNull, r') | None => None end
          else if (c =? "t")%char then
            match expect "rue" r with Some r' => Some (JBool true, r') | None => None end
          else if (c =? "f")%char then
            match expect "alse" r with Some r' => Some (JBool false, r') | None => None end
          else
            match parse_int s with
            | Some (z, r') => Some (JNum z, r')
            | None => None
            end
      end
  end

with parse_elements (fuel : nat) (s : string) (acc : list json)
  : option (json * string) :=
  match fuel with
  | O => None
  | S fuel' =>
      match parse_value fuel' s with
      | Some (v, r) =>
          match next_is "," (skip_ws r) with
          | Some r' => parse_elements fuel' (skip_ws r') (acc ++ [v])%list
          | None =>
              match next_is "]" (skip_ws r) with
              | Some r' => Some (JList (acc ++ [v])%list, r')
              | None => None
              end
          end
      | None => None
      end
  end

with parse_members (fuel : nat) (s : string) (acc : list (string * json))
  : option (json * string) :=
  match fuel with
  | O => None
  | S fuel' =>
      match next_is dquote s with
      | Some r =>
          match parse_string r with
          | Some (k, r1) =>
              match next_is ":" (skip_ws r1) with
              | Some r2 =>
                  match parse_value fuel' (skip_ws r2) with
                  | Some (v, r3) =>
                      match next_is "," (skip_ws r3) with
                      | Some r4 =>
                          parse_members fuel' (skip_ws r4) (acc ++ [(k, v)])%list
                      | None =>
                          match next_is "}" (skip_ws r3) with
                          | Some r4 =>
                              Some (JDict (dict_of_pairs (acc ++ [(k, v)])%list), r4)
                          | None => None
                          end
                      end
                  | None => None
                  end
              | None => None
              end
          | None => None
          end
      | None => None
      end
  end.

Definition loads (s : string) : option json :=
  match parse_value (S (String.length s)) (skip_ws s) with
  | Some (j, r) =>
      match skip_ws r with
      | EmptyString => Some j
      | String _ _ => None
      end
  | None => None
  end.

End Json.

(* ================================================================= *)
(** ** Files and requests *)

Definition bytes := list Byte.byte.

(** [FileStream = BufferedReader | bytes | bytearray]; a reader carries
    the name it was opened under. *)
Inductive FileStream : Type :=
| BufferedReader (name : string) (content : bytes)
| Bytes (b : bytes)
| ByteArray (b : bytes).

(** [File = str | FileStream]. *)
Inductive File : Type :=
| FStr (s : string)
| FStream (f : FileStream).

Definition stream_truthy (f : FileStream) : bool :=
  match f with
  | BufferedReader _ _ => true
  | Bytes b | ByteArray b => match b with [] => false | _ :: _ => true end
  end.

(** A field handed to [MultipartEncoder]: a text, or a (filename, file) pair. *)
Inductive Field : Type :=
| FieldText (s : string)
| FieldFile (filename : string) (file : File).

(** An encoder that was built: its fields and its boundary. *)
Record Multipart : Type := mkMultipart {
  fields : list (string * Field);
  boundary_value : string
}.

Definition content_type (form : Multipart) : string :=
  "multipart/form-data; boundary=" ++ boundary_value form.

(** The keyword arguments [_post] forwards to [requests.post]. *)
Record Kwargs : Type := mkKwargs {
  kw_params : option (list (string * string));
  kw_json : option json;
  kw_data : option Multipart;
  kw_headers : option (list (string * string))
}.

Definition set_headers (h : list (string * string)) (k : Kwargs) : Kwargs :=
  mkKwargs (kw_params k) (kw_json k) (kw_data k) (Some h).

Record Request : Type := mkRequest {
  req_url : string;
  req_kwargs : Kwargs
}.

(** The frame grabber of [cv2]: for a file name, the first frame encoded
    as JPEG, when the video can be read. *)
Definition Cv2 : Type := string -> option bytes.

(* ================================================================= *)
(** ** The machine and its monad *)

Record Machine : Type := mkMachine {
  (** the [TenantToken] descriptor, one object shared by the class *)
  token : json;
  expire_at : Z;
  (** the instance attribute of the bot; [None] while it is not set *)
  user_id : option json;
  (** requests posted so far, oldest first *)
  sent : list Request;
  (** the decoded bodies the service will answer with, in order *)
  replies : list json;
  (** the wall clock, instant by instant, and the instant the run has
      reached: one passes with every reading and every request *)
  clock : nat -> Z;
  ticks : nat;
  (** the values of [uuid4().hex], and how many were drawn *)
  uuids : nat -> string;
  draws : nat;
  (** messages given to [logger.warning], oldest first *)
  warnings : list string
}.

Definition M (A : Type) : Type := Machine -> result A * Machine.

Definition ret {A} (a : A) : M A := fun m => (Ok a, m).
Definition raise {A} (e : exn) : M A := fun m => (Raise e, m).
Definition bind {A B} (c : M A) (k : A -> M B) : M B :=
  fun m => match c m with
           | (Ok a, m') => k a m'
           | (Raise e, m') => (Raise e, m')
           end.
Definition lift {A} (r : result A) : M A := fun m => (r, m).

Declare Scope monad_scope.
Delimit Scope monad_scope with monad.
Notation "x <- c ;; k" := (bind c (fun x => k))
  (at level 61, c at next level, right associativity) : monad_scope.
Notation "c ;; k" := (bind c (fun _ => k))
  (at level 61, right associativity) : monad_scope.
Local Open Scope monad_scope.

Definition set_token (v : json) : M unit := fun m =>
  (Ok tt, mkMachine v (expire_at m) (user_id m) (sent m) (replies m)
             (clock m) (ticks m) (uuids m) (draws m) (warnings m)).

Definition set_expire_at (t : Z) : M unit := fun m =>
  (Ok tt, mkMachine (token m) t (user_id m) (sent m) (replies m)
             (clock m) (ticks m) (uuids m) (draws m) (warnings m)).

Definition set_user_id (v : json) : M unit := fun m =>
  (Ok tt, mkMachine (token m) (expire_at m) (Some v) (sent m) (replies m)
             (clock m) (ticks m) (uuids m) (draws m) (warnings m)).

Definition get_token : M json := fun m => (Ok (token m), m).
Definition get_expire_at : M Z := fun m => (Ok (expire_at m), m).

(** The error of a lookup that finds no attribute of that name. *)
Definition no_attribute (name : string) : exn :=
  AttributeError ("'FeiShuBot' object has no attribute '" ++ name ++ "'").

(** Reading [self.user_id]. *)
Definition get_user_id : M json := fun m =>
  match user_id m with
  | Some v => (Ok v, m)
  | None => (Raise (no_attribute "user_id"), m)
  end.

(** [datetime.now()]. *)
Definition datetime_now : M Z := fun m =>
  (Ok (clock m (ticks m)),
   mkMachine (token m) (expire_at m) (user_id m) (sent m) (replies m)
     (clock m) (S (ticks m)) (uuids m) (draws m) (warnings m)).

(** [uuid4().hex], from which a [MultipartEncoder] makes its boundary. *)
Definition uuid4_hex : M string := fun m =>
  (Ok (uuids m (draws m)),
   mkMachine (token m) (expire_at m) (user_id m) (sent m) (replies m)
     (clock m) (ticks m) (uuids m) (S (draws m)) (warnings m)).

(** [logger.warning(msg)]. *)
Definition logger_warning (msg : string) : M unit := fun m =>
  (Ok tt, mkMachine (token m) (expire_at m) (user_id m) (sent m) (replies m)
             (clock m) (ticks m) (uuids m) (draws m) (warnings m ++ [msg])%list).

(** [requests.post(url, **kwargs).json()]: the request goes out, and the
    next answer of the service comes back decoded; no answer is a
    connection error.  The exchange takes the run to the next instant. *)
Definition requests_post (url : string) (kwargs : Kwargs) : M json := fun m =>
  let out := (sent m ++ [mkRequest url kwargs])%list in
  match replies m with
  | r :: rest =>
      (Ok r, mkMachine (token m) (expire_at m) (user_id m) out rest
               (clock m) (S (ticks m)) (uuids m) (draws m) (warnings m))
  | [] =>
      (Raise ConnectionError,
       mkMachine (token m) (expire_at m) (user_id m) out []
         (clock m) (S (ticks m)) (uuids m) (draws m) (warnings m))
  end.

(** What [MultipartEncoder] can make the body of a part from: a [str]
    or [bytes], which it encodes, and an opened file, which it wraps.  A
    [bytearray] is none of these. *)
Definition encodable (file : File) : bool :=
  match file with
  | FStream (ByteArray _) => false
  | _ => true
  end.

Definition part_encodable (field : Field) : bool :=
  match field with
  | FieldText _ => true
  | FieldFile _ file => encodable file
  end.

(** [MultipartEncoder(fields)]: the boundary is drawn, then every part
    is prepared; the encoder asks a body it cannot take for its [encode]
    method. *)
Definition MultipartEncoder (fields : list (string * Field)) : M Multipart :=
  boundary <- uuid4_hex ;;
  if forallb (fun kv => part_encodable (snd kv)) fields
  then ret (mkMultipart fields boundary)
  else raise (AttributeError "'bytearray' object has no attribute 'encode'").

(* ================================================================= *)
(** ** The environment of the module *)

(** A positional argument of a method call. *)
Inductive Arg : Type :=
| AVal (v : json)
| AStream (f : FileStream).

(** What an attribute access gives: an object, or something to call. *)
Inductive Attr : Type :=
| AttrValue (v : json)
| AttrCallable (f : list Arg -> M json).

(** The names the module binds when it is imported, and what Python
    supplies beyond the module:
    - [repr], which the f-strings apply to the objects they print;
    - [builtin_attribute name], the attribute of that name an instance
      has beyond those followed here, if there is one: the special
      attributes of an object ([__class__], [__dict__], [__setattr__],
      [__getattribute__], ...);
    - [untyped_call name args], what the method [name] does when it is
      called with the right number of arguments, one of which is not of
      the type the signature names. *)
Record Env : Type := mkEnv {
  FEISHU_APP_ID : option string;
  FEISHU_APP_SECRET : option string;
  FEISHU_PHONE : option string;
  FEISHU_EMAIL : option string;
  FEISHU_OPEN_ID : option string;
  cv2 : option Cv2;
  repr : json -> string;
  builtin_attribute : string -> option (M Attr);
  untyped_call : string -> list Arg -> M json
}.

(** [str(x)], as an f-string formats a field. *)
Definition py_str (env : Env) (x : json) : string :=
  match x with
  | JStr s => s
  | _ => repr env x
  end.

Definition TENANT_TOKEN_API : string :=
  "https://open.feishu.cn/open-apis/auth/v3/tenant_access_token/internal".
Definition USER_ID_API : string :=
  "https://open.feishu.cn/open-apis/contact/v3/users/batch_get_id".
Definition MESSAGE_API : string := "https://open.feishu.cn/open-apis/im/v1/messages".
Definition UPLOAD_IMAGE_API : string := "https://open.feishu.cn/open-apis/im/v1/images".
Definition UPLOAD_FILE_API : string := "https://open.feishu.cn/open-apis/im/v1/files".

Definition ENABLE (env : Env) : bool :=
  if py_all [present (FEISHU_APP_ID env); present (FEISHU_APP_SECRET env);
             py_any [present (FEISHU_OPEN_ID env); present (FEISHU_PHONE env);
                     present (FEISHU_EMAIL env)]]
  then true else false.

(* ================================================================= *)
(** ** Module-level functions *)

Section Functions.
Variable env : Env.

Definition _post (url : string) (token : json) (kwargs : Kwargs) : M json :=
  let headers :=
    match kw_headers kwargs with
    | None => [("Content-Type", "application/json")]
    | Some h => h
    end in
  let headers :=
    if truthy token
    then dict_set "authorization" ("Bearer " ++ py_str env token) headers
    else headers in
  resp <- requests_post url (set_headers headers kwargs) ;;
  code <- lift (getitem resp "code") ;;
  if truthy code then
    msg <- lift (getitem resp "msg") ;;
    raise (ValueError ("Message failed: " ++ py_str env msg))
  else ret resp.

(** The loop of [get_open_id]: the [user_id] of the first user that
    has one. *)
Fixpoint first_user_id (users : list json) : result (option json) :=
  match users with
  | [] => Ok None
  | user :: rest =>
      match contains "user_id" user with
      | Raise e => Raise e
      | Ok true =>
          match getitem user "user_id" with
          | Ok v => Ok (Some v)
          | Raise e => Raise e
          end
      | Ok false => first_user_id rest
      end
  end.

Definition lookup_body : list (string * json) :=
  let body := [] in
  let body :=
    if present (FEISHU_PHONE env)
    then dict_set "mobiles" (JList [getenv_value (FEISHU_PHONE env)]) body
    else body in
  let body :=
    if present (FEISHU_EMAIL env)
    then dict_set "emails" (JList [getenv_value (FEISHU_EMAIL env)]) body
    else body in
  body.

Definition get_open_id (token : json) : M json :=
  if negb (py_any [present (FEISHU_PHONE env); present (FEISHU_EMAIL env)]) then
    raise (ValueError
      ("To query open_id when FEISHU_OPEN_ID isn't set, FEISHU_PHONE "
       ++ "or FEISHU_EMAIL must be set with your phone or email."))
  else
    let body := lookup_body in
    resp <- _post USER_ID_API token
              (mkKwargs (Some [("user_id_type", "open_id")])
                        (Some (JDict body)) None None) ;;
    data <- lift (getitem resp "data") ;;
    user_list <- lift (getitem data "user_list") ;;
    users <- lift (iterate user_list) ;;
    found <- lift (first_user_id users) ;;
    match found with
    | Some v => ret v
    | None =>
        raise (ValueError ("Query open_id failed: no user_id found. body="
                           ++ repr env (JDict body)))
    end.
End Functions.

(* ================================================================= *)
(** ** [class TenantToken] *)

Module TenantToken.
Section Methods.
Variable env : Env.

Definition __init__ : M unit :=
  set_token (JStr "") ;;
  now <- datetime_now ;;
  set_expire_at now.

Definition request_token : M unit :=
  resp <- _post env TENANT_TOKEN_API (JStr "")
            (mkKwargs None
               (Some (JDict [("app_id", getenv_value (FEISHU_APP_ID env));
                             ("app_secret", getenv_value (FEISHU_APP_SECRET env))]))
               None None) ;;
  t <- lift (getitem resp "tenant_access_token") ;;
  set_token t ;;
  expire <- lift (getitem resp "expire") ;;
  delta <- lift (timedelta_seconds expire) ;;
  now <- datetime_now ;;
  until <- lift (datetime_add delta now) ;;
  set_expire_at until.

(** Whether [__get__] refreshes: [not self.token or
    self.expire_at < datetime.now()]; the clock is read only when a
    token is cached. *)
Definition stale : M bool :=
  t <- get_token ;;
  if negb (truthy t) then ret true
  else
    e <- get_expire_at ;;
    now <- datetime_now ;;
    ret (e <? now)%Z.

Definition __get__ : M json :=
  refresh <- stale ;;
  (if refresh then request_token else ret tt) ;;
  get_token.

Definition __set__ (value : json) : M unit :=
  raise (AttributeError "TenantToken is read-only").
End Methods.
End TenantToken.

(* ================================================================= *)
(** ** [class FeiShuBot] *)

Module FeiShuBot.
Section Methods.
Variable env : Env.

Definition __init__ : M unit :=
  if negb (ENABLE env) then ret tt
  else
    uid <- (if present (FEISHU_OPEN_ID env)
            then ret (getenv_value (FEISHU_OPEN_ID env))
            else (t <- TenantToken.__get__ env ;; get_open_id env t)) ;;
    set_user_id uid.

Definition _send_message (msg_type : string) (content : json) : M json :=
  t <- TenantToken.__get__ env ;;
  uid <- get_user_id ;;
  _post env MESSAGE_API t
    (mkKwargs (Some [("receive_id_type", "open_id")])
       (Some (JDict [("receive_id", uid);
                     ("msg_type", JStr msg_type);
                     ("content", JStr (Json.dumps content))]))
       None None).

Definition _post_file (file_type : string) (file : File) (filename : string)
  : M json :=
  let filename :=
    if negb (nonempty filename) then
      match file with
      | FStream (BufferedReader name _) => basename name
      | _ => "file"
      end
    else filename in
  let '(url, fields) :=
    if (file_type =? "image")%string then
      (UPLOAD_IMAGE_API,
       [("image_type", FieldText "message");
        ("image", FieldFile filename file)])
    else
      (UPLOAD_FILE_API,
       [("file_type", FieldText file_type);
        ("file", FieldFile filename file);
        ("filename", FieldText filename)]) in
  t <- TenantToken.__get__ env ;;
  form <- MultipartEncoder fields ;;
  resp <- _post env url t
            (mkKwargs None None (Some form)
               (Some [("Content-Type", content_type form)])) ;;
  lift (getitem resp "data").

Definition send_text (msg : string) : M json :=
  _send_message "text" (JDict [("text", JStr msg)]).

Definition send_image (image : FileStream) : M json :=
  handle <- _post_file "image" (FStream image) "" ;;
  _send_message "image" handle.

Definition send_file (file : File) (file_type : string) (filename : string)
  : M json :=
  handle <- _post_file file_type file filename ;;
  _send_message "file" handle.

Definition send_audio (audio : FileStream) : M json :=
  handle <- _post_file "opus" (FStream audio) "" ;;
  _send_message "audio" handle.

Definition send_media (media : FileStream) (cover : FileStream) : M json :=
  match cv2 env with
  | None =>
      logger_warning "opencv-python is not installed, send_media is unavailable" ;;
      ret (JDict [])
  | Some first_frame_jpeg =>
      cover <- (if negb (stream_truthy cover) then
                  match media with
                  | BufferedReader name _ =>
                      match first_frame_jpeg name with
                      | Some jpg => ret (Bytes jpg)
                      | None => raise Cv2Error
                      end
                  | _ =>
                      raise (ValueError
                        "Cover must be set when media is not an opened file")
                  end
                else ret cover) ;;
      video <- _post_file "mp4" (FStream media) "" ;;
      image <- _post_file "image" (FStream cover) "" ;;
      content <- lift (py_or video image) ;;
      _send_message "media" content
  end.

Definition card_content (message header : string) : json :=
  let content :=
    [("config", JDict [("wide_screen_mode", JBool true)]);
     ("elements", JList [JDict [("tag", JStr "markdown");
                                ("content", JStr message)]])] in
  let content :=
    if nonempty header then
      dict_set "header"
        (JDict [("title", JDict [("tag", JStr "plain_text");
                                 ("content", JStr header)]);
                ("template", JStr "blue")])
        content
    else content in
  JDict content.

Definition send_card (message header : string) : M json :=
  _send_message "interactive" (card_content message header) ;;
  ret JNull.

(** *** Attribute access *)

(** The function [__getattribute__] hands out while the bot is disabled. *)
Definition wrap (__name : string) (_ : list Arg) : M json :=
  logger_warning ("FeiShuBot is disabled, " ++ __name ++ " is unavailable.") ;;
  ret JNull.

(** An argument as a value of the type a signature names, when it is
    one: [str], [FileStream], [File = str | FileStream], or an object
    that [json] can encode (the [dict] of [_send_message]). *)
Definition as_str (a : Arg) : option string :=
  match a with
  | AVal (JStr s) => Some s
  | _ => None
  end.

Definition as_stream (a : Arg) : option FileStream :=
  match a with
  | AStream f => Some f
  | AVal _ => None
  end.

Definition as_file (a : Arg) : option File :=
  match a with
  | AVal (JStr s) => Some (FStr s)
  | AStream f => Some (FStream f)
  | AVal _ => None
  end.

Definition as_object (a : Arg) : option json :=
  match a with
  | AVal v => Some v
  | AStream _ => None
  end.

(** The methods bound to their positional arguments, a default taking
    the place of a trailing argument left out.  Too few or too many
    arguments are a [TypeError] before the body runs; with the right
    number, the body runs on arguments of the types its signature names,
    and other arguments are the environment's [untyped_call]. *)
Definition bound_method (name : string) : option (list Arg -> M json) :=
  if (name =? "__init__")%string then
    Some (fun args => match args with
                      | [] => __init__ ;; ret JNull
                      | _ => raise TypeError
                      end)
  else if (name =? "send_text")%string then
    Some (fun args =>
            match args with
            | [msg] =>
                match as_str msg with
                | Some msg => send_text msg
                | None => untyped_call env name args
                end
            | _ => raise TypeError
            end)
  else if (name =? "send_image")%string then
    Some (fun args =>
            match args with
            | [image] =>
                match as_stream image with
                | Some image => send_image image
                | None => untyped_call env name args
                end
            | _ => raise TypeError
            end)
  else if (name =? "send_file")%string then
    Some (fun args =>
            match args with
            | [file; file_type] =>
                match as_file file, as_str file_type with
                | Some file, Some file_type => send_file file file_type ""
                | _, _ => untyped_call env name args
                end
            | [file; file_type; filename] =>
                match as_file file, as_str file_type, as_str filename with
                | Some file, Some file_type, Some filename =>
                    send_file file file_type filename
                | _, _, _ => untyped_call env name args
                end
            | _ => raise TypeError
            end)
  else if (name =? "send_audio")%string then
    Some (fun args =>
            match args with
            | [audio] =>
                match as_stream audio with
                | Some audio => send_audio audio
                | None => untyped_call env name args
                end
            | _ => raise TypeError
            end)
  else if (name =? "send_media")%string then
    Some (fun args =>
            match args with
            | [media] =>
                match as_stream media with
                | Some media => send_media media (Bytes [])
                | None => untyped_call env name args
                end
            | [media; cover] =>
                match as_stream media, as_stream cover with
                | Some media, Some cover => send_media media cover
                | _, _ => untyped_call env name args
                end
            | _ => raise TypeError
            end)
  else if (name =? "send_card")%string then
    Some (fun args =>
            match args with
            | [message] =>
                match as_str message with
                | Some message => send_card message ""
                | None => untyped_call env name args
                end
            | [message; header] =>
                match as_str message, as_str header with
                | Some message, Some header => send_card message header
                | _, _ => untyped_call env name args
                end
            | _ => raise TypeError
            end)
  else if (name =? "_send_message")%string then
    Some (fun args =>
            match args with
            | [msg_type; content] =>
                match as_str msg_type, as_object content with
                | Some msg_type, Some content => _send_message msg_type content
                | _, _ => untyped_call env name args
                end
            | _ => raise TypeError
            end)
  else if (name =? "_post_file")%string then
    Some (fun args =>
            match args with
            | [file_type; file] =>
                match as_str file_type, as_file file with
                | Some file_type, Some file => _post_file file_type file ""
                | _, _ => untyped_call env name args
                end
            | [file_type; file; filename] =>
                match as_str file_type, as_file file, as_str filename with
                | Some file_type, Some file, Some filename =>
                    _post_file file_type file filename
                | _, _, _ => untyped_call env name args
                end
            | _ => raise TypeError
            end)
  else None.

(** [super().__getattribute__(name)]: the descriptor of the class, the
    attribute the constructor sets, the methods the class defines, and
    for every other name what Python gives the instance, or the error of
    a name it does not have. *)
Definition object_getattribute (name : string) : M Attr :=
  if (name =? "token")%string then
    t <- TenantToken.__get__ env ;; ret (AttrValue t)
  else if (name =? "user_id")%string then
    uid <- get_user_id ;; ret (AttrValue uid)
  else
    match bound_method name with
    | Some f => ret (AttrCallable f)
    | None =>
        match builtin_attribute env name with
        | Some attr => attr
        | None => raise (no_attribute name)
        end
    end.

Definition __getattribute__ (__name : string) : M Attr :=
  if ENABLE env then object_getattribute __name
  else if (__name =? "token")%string then ret (AttrValue (JStr ""))
  else ret (AttrCallable (wrap __name)).

(** The call [bot.name(args)]. *)
Definition invoke (name : string) (args : list Arg) : M json :=
  attr <- __getattribute__ name ;;
  match attr with
  | AttrCallable f => f args
  | AttrValue _ => raise TypeError
  end.
End Methods.
End FeiShuBot.

(** The names of the operations the class offers to its users. *)
Definition public_operations : list string :=
  ["send_text"; "send_image"; "send_file"; "send_audio"; "send_media";
   "send_card"].

(** Importing the module: the gate is evaluated and reported, the
    descriptor is created with the class, and [bot = FeiShuBot()]. *)
Definition module_import (env : Env) : M unit :=
  (if negb (ENABLE env) then
     logger_warning
       ("FEISHU_APP_ID=" ++ repr env (getenv_value (FEISHU_APP_ID env))
        ++ " or FEISHU_APP_SECRET="
        ++ repr env (getenv_value (FEISHU_APP_SECRET env))
        ++ " is not set, feishu bot is unavailable.")
   else ret tt) ;;
  TenantToken.__init__ ;;
  FeiShuBot.__init__ env.

(** A machine on which nothing has happened yet. *)
Definition boot (answers : list json) (time : nat -> Z) (ids : nat -> string)
  : Machine :=
  mkMachine JNull 0%Z None [] answers time 0 ids 0 [].

(* ================================================================= *)
(** * Properties *)

(** ** Vocabulary of the statements *)

(** The machine after one more request went out and its answer, if any,
    was consumed: an instant later. *)
Definition push (req : Request) (m : Machine) : Machine :=
  mkMachine (token m) (expire_at m) (user_id m) (sent m ++ [req])%list
    (tl (replies m)) (clock m) (S (ticks m)) (uuids m) (draws m) (warnings m).

(** The machine after one more reading of the clock: an instant later. *)
Definition tick (m : Machine) : Machine :=
  mkMachine (token m) (expire_at m) (user_id m) (sent m) (replies m)
    (clock m) (S (ticks m)) (uuids m) (draws m) (warnings m).

(** The machine after one more boundary was drawn. *)
Definition draw (m : Machine) : Machine :=
  mkMachine (token m) (expire_at m) (user_id m) (sent m) (replies m)
    (clock m) (ticks m) (uuids m) (S (draws m)) (warnings m).

(** The machine after one more warning was logged. *)
Definition warn (msg : string) (m : Machine) : Machine :=
  mkMachine (token m) (expire_at m) (user_id m) (sent m) (replies m)
    (clock m) (ticks m) (uuids m) (draws m) (warnings m ++ [msg])%list.

(** The machine after the descriptor stored a token and its expiry. *)
Definition store (t : json) (e : Z) (m : Machine) : Machine :=
  mkMachine t e (user_id m) (sent m) (replies m)
    (clock m) (ticks m) (uuids m) (draws m) (warnings m).

(** The headers a request carries, and the supplied ones, if any. *)
Definition headers_of (req : Request) : list (string * string) :=
  match kw_headers (req_kwargs req) with Some h => h | None => [] end.

Definition supplied_headers (kwargs : Kwargs) : list (string * string) :=
  match kw_headers kwargs with
  | Some h => h
  | None => [("Content-Type", "application/json")]
  end.

(** The request [_post] sends. *)
Definition post_request (env : Env) (url : string) (tok : json) (kwargs : Kwargs)
  : Request :=
  mkRequest url
    (set_headers
       (if truthy tok
        then dict_set "authorization" ("Bearer " ++ py_str env tok)
               (supplied_headers kwargs)
        else supplied_headers kwargs)
       kwargs).

(** What [_post] makes of the answer it gets. *)
Definition post_outcome (env : Env) (answer : option json) : result json :=
  match answer with
  | None => Raise ConnectionError
  | Some resp =>
      match getitem resp "code" with
      | Raise e => Raise e
      | Ok code =>
          if truthy code then
            match getitem resp "msg" with
            | Raise e => Raise e
            | Ok msg => Raise (ValueError ("Message failed: " ++ py_str env msg))
            end
          else Ok resp
      end
  end.

(** The requests of a log that went to a given endpoint. *)
Definition calls_to (url : string) (log : list Request) : list Request :=
  filter (fun r => (req_url r =? url)%string) log.

(** The authentication request of [request_token]. *)
Definition auth_request (env : Env) : Request :=
  post_request env TENANT_TOKEN_API (JStr "")
    (mkKwargs None
       (Some (JDict [("app_id", getenv_value (FEISHU_APP_ID env));
                     ("app_secret", getenv_value (FEISHU_APP_SECRET env))]))
       None None).

(** The lookups a machine has seen, and a computation that adds none. *)
Definition lookups (m : Machine) : list Request := calls_to USER_ID_API (sent m).

Definition quiet {A : Type} (c : M A) : Prop :=
  forall m, lookups (snd (c m)) = lookups m.

(** The lookup request of [get_open_id]. *)
Definition lookup_request (env : Env) (tok : json) : Request :=
  post_request env USER_ID_API tok
    (mkKwargs (Some [("user_id_type", "open_id")])
       (Some (JDict (lookup_body env))) None None).

(** A user record that holds no [user_id]. *)
Definition lacks_user_id (u : json) : Prop :=
  exists d, u = JDict d /\ dict_get "user_id" d = None.

(** What [get_open_id] makes of the envelope of its lookup. *)
Definition resolve (env : Env) (resp : json) : result json :=
  match getitem resp "data" with
  | Raise e => Raise e
  | Ok data =>
      match getitem data "user_list" with
      | Raise e => Raise e
      | Ok user_list =>
          match iterate user_list with
          | Raise e => Raise e
          | Ok users =>
              match first_user_id users with
              | Raise e => Raise e
              | Ok (Some v) => Ok v
              | Ok None =>
                  Raise (ValueError
                    ("Query open_id failed: no user_id found. body="
                     ++ repr env (JDict (lookup_body env))))
              end
          end
      end
  end.

Definition unconfigured_message : string :=
  "To query open_id when FEISHU_OPEN_ID isn't set, FEISHU_PHONE "
  ++ "or FEISHU_EMAIL must be set with your phone or email.".

(** The request [_send_message] sends for a recipient [uid]. *)
Definition message_request (env : Env) (tok uid : json) (msg_type : string)
  (content : json) : Request :=
  post_request env MESSAGE_API tok
    (mkKwargs (Some [("receive_id_type", "open_id")])
       (Some (JDict [("receive_id", uid);
                     ("msg_type", JStr msg_type);
                     ("content", JStr (Json.dumps content))]))
       None None).

(** The request [_post_file] sends for a form with the given fields. *)
Definition upload_request (env : Env) (tok : json) (url : string)
  (form_fields : list (string * Field)) (boundary : string) : Request :=
  post_request env url tok
    (mkKwargs None None (Some (mkMultipart form_fields boundary))
       (Some [("Content-Type",
               content_type (mkMultipart form_fields boundary))])).

(** The error of the encoder on a [bytearray]. *)
Definition no_encode : exn :=
  AttributeError "'bytearray' object has no attribute 'encode'".

(** A cached token that no reading of the clock finds expired. *)
Definition fresh (m : Machine) : Prop :=
  truthy (token m) = true /\ forall i, (clock m i <= expire_at m)%Z.

(** An operation whose every result is the envelope that a send of
    kind [msg_type] returned, in the machine that send left. *)
Definition returns_send_response (env : Env) (msg_type : string) (op : M json)
  : Prop :=
  forall m v m',
    op m = (Ok v, m') ->
    exists content m0,
      FeiShuBot._send_message env msg_type content m0 = (Ok v, m').

(** Whether [__get__] finds the cache stale on this machine. *)
Definition is_stale (m : Machine) : bool :=
  negb (truthy (token m)) || (expire_at m <? clock m (ticks m))%Z.

(** [n] token requests in a row; the run ends at the first that raises. *)
Fixpoint token_requests (env : Env) (n : nat) : M unit :=
  match n with
  | O => ret tt
  | S k => _ <- TenantToken.__get__ env ;; token_requests env k
  end.

(** How many requests of such a run find the cache stale. *)
Fixpoint stale_requests (env : Env) (n : nat) (m : Machine) : nat :=
  match n with
  | O => 0
  | S k =>
      (if is_stale m then 1 else 0)
      + match TenantToken.__get__ env m with
        | (Ok _, m') => stale_requests env k m'
        | (Raise _, _) => 0
        end
  end.

(** The names the class gives its instances beyond the constructor: the
    descriptor, the recipient and the methods. *)
Definition members : list string :=
  ["token"; "user_id"; "_send_message"; "_post_file"; "send_text";
   "send_image"; "send_file"; "send_audio"; "send_media"; "send_card"].

(** The types the signature of a method names for the parameters that
    follow [self], in order, as tests on an argument. *)
Definition is_some {A : Type} (o : option A) : bool :=
  match o with Some _ => true | None => false end.

Definition signature (name : string) : list (Arg -> bool) :=
  let str a := is_some (FeiShuBot.as_str a) in
  let stream a := is_some (FeiShuBot.as_stream a) in
  let file a := is_some (FeiShuBot.as_file a) in
  let object a := is_some (FeiShuBot.as_object a) in
  if (name =? "send_text")%string then [str]
  else if (name =? "send_image")%string then [stream]
  else if (name =? "send_file")%string then [file; str; str]
  else if (name =? "send_audio")%string then [stream]
  else if (name =? "send_media")%string then [stream; stream]
  else if (name =? "send_card")%string then [str; str]
  else if (name =? "_send_message")%string then [str; object]
  else if (name =? "_post_file")%string then [str; file; str]
  else [].

Fixpoint fits (tests : list (Arg -> bool)) (args : list Arg) : bool :=
  match tests, args with
  | test :: tests', a :: args' => test a && fits tests' args'
  | _, _ => true
  end.

(** A call whose arguments are of the types the signature names. *)
Definition typed_call (name : string) (args : list Arg) : bool :=
  fits (signature name) args.

(** What the call [bot.name(args)] runs, for a name of the class and
    arguments of the types of its signature: the logging function while
    the bot is disabled; the error of calling an attribute that is no
    function, after it was read; the error of a wrong number of
    arguments; or the body of the method. *)
Inductive call_run (env : Env) (name : string) (args : list Arg)
  : M json -> Prop :=
| run_wrap :
    ENABLE env = false -> call_run env name args (FeiShuBot.wrap name args)
| run_token :
    call_run env name args (_ <- TenantToken.__get__ env ;; raise TypeError)
| run_user_id :
    call_run env name args (_ <- get_user_id ;; raise TypeError)
| run_arity : call_run env name args (raise TypeError)
| run_init :
    name = "__init__" ->
    call_run env name args (FeiShuBot.__init__ env ;; ret JNull)
| run_send_message msg_type content :
    call_run env name args (FeiShuBot._send_message env msg_type content)
| run_post_file file_type file filename :
    call_run env name args (FeiShuBot._post_file env file_type file filename)
| run_send_text msg : call_run env name args (FeiShuBot.send_text env msg)
| run_send_image image : call_run env name args (FeiShuBot.send_image env image)
| run_send_file file file_type filename :
    call_run env name args (FeiShuBot.send_file env file file_type filename)
| run_send_audio audio : call_run env name args (FeiShuBot.send_audio env audio)
| run_send_media media cover :
    call_run env name args (FeiShuBot.send_media env media cover)
| run_send_card message header :
    call_run env name args (FeiShuBot.send_card env message header).

(** An environment with one setting taken away. *)


Definition unset_app_id (env : Env) : Env :=
  mkEnv None (FEISHU_APP_SECRET env) (FEISHU_PHONE env) (FEISHU_EMAIL env)
        (FEISHU_OPEN_ID env) (cv2 env) (repr env)
        (builtin_attribute env) (untyped_call env).

Definition unset_app_secret (env : Env) : Env :=
  mkEnv (FEISHU_APP_ID env) None (FEISHU_PHONE env) (FEISHU_EMAIL env)
        (FEISHU_OPEN_ID env) (cv2 env) (repr env)
        (builtin_attribute env) (untyped_call env).

Definition unset_recipient (env : Env) : Env :=
  mkEnv (FEISHU_APP_ID env) (FEISHU_APP_SECRET env) None None None
        (cv2 env) (repr env) (builtin_attribute env) (untyped_call env).

(** *** Vocabulary of the JSON round trip *)

(** What may follow a number: nothing that would extend it. *)
Definition terminated (rest : string) : bool :=
  match rest with
  | EmptyString => true
  | String c _ => negb (Json.is_digit c) && negb (Json.floatish rest)
  end.

(** The number of values in a value, itself included: the fuel its
    decoding takes. *)
Fixpoint size (j : json) : nat :=
  match j with
  | JList l => S (fold_right (fun x n => S (size x + n)) 0 l)
  | JDict d => S (fold_right (fun kv n => S (size (snd kv) + n)) 0 d)
  | _ => 1
  end.

Definition sizes (l : list json) : nat :=
  fold_right (fun x n => S (size x + n)) 0 l.

Definition member_sizes (d : list (string * json)) : nat :=
  fold_right (fun kv n => S (size (snd kv) + n)) 0 d.

(** A Python dict has one entry per key, at every depth. *)
Inductive distinct_keys : json -> Prop :=
| dk_null : distinct_keys JNull
| dk_bool b : distinct_keys (JBool b)
| dk_num n : distinct_keys (JNum n)
| dk_str s : distinct_keys (JStr s)
| dk_list l : Forall distinct_keys l -> distinct_keys (JList l)
| dk_dict d :
    NoDup (map fst d) ->
    Forall (fun kv => distinct_keys (snd kv)) d ->
    distinct_keys (JDict d).

(** Induction on values that reaches into lists and dicts. *)
Section JsonInduction.
Variable P : json -> Prop.
Hypothesis Hnull : P JNull.
Hypothesis Hbool : forall b, P (JBool b).
Hypothesis Hnum : forall n, P (JNum n).
Hypothesis Hstr : forall s, P (JStr s).
Hypothesis Hlist : forall l, Forall P l -> P (JList l).
Hypothesis Hdict : forall d, Forall (fun kv => P (snd kv)) d -> P (JDict d).

Fixpoint json_nested_ind (j : json) : P j :=
  match j with
  | JNull => Hnull
  | JBool b => Hbool b
  | JNum n => Hnum n
  | JStr s => Hstr s
  | JList l =>
      Hlist l
        ((fix all (l : list json) : Forall P l :=
            match l with
            | [] => Forall_nil P
            | x :: r => Forall_cons x (json_nested_ind x) (all r)
            end) l)
  | JDict d =>
      Hdict d
        ((fix all (d : list (string * json)) : Forall (fun kv => P (snd kv)) d :=
            match d with
            | [] => Forall_nil _
            | kv :: r => Forall_cons kv (json_nested_ind (snd kv)) (all r)
            end) d)
  end.
End JsonInduction.

(** The text of one entry of a dict. *)
Definition member (kv : string * json) : string :=
  Json.quote (fst kv) ++ ": " ++ Json.dumps (snd kv).

(** A string on which a value starts: no blank and no closing bracket
    comes first. *)
Definition starts_value (s : string) : Prop :=
  Json.skip_ws s = s
  /\ Json.next_is "]" s = None
  /\ Json.next_is "}" s = None.

(** Decoding the text of [j], whatever follows it, gives [j] back and
    leaves what follows. *)
Definition round_trips (j : json) : Prop :=
  distinct_keys j ->
  forall fuel rest,
    size j <= fuel -> terminated rest = true ->
    Json.parse_value fuel (Json.dumps j ++ rest) = Some (j, rest).

(** *** Sample environments, envelopes and machines *)

(** In the examples [repr] is stood in for by the JSON encoder; no
    special attribute is looked up and no call leaves the signatures, so
    both are given the simplest of their values. *)
Definition grab_stub : Cv2 := fun _ => Some [Byte.xff; Byte.xd8].

Definition no_builtin : string -> option (M Attr) := fun _ => None.
Definition refuse : string -> list Arg -> M json := fun _ _ => raise TypeError.

Definition env_phone : Env :=
  mkEnv (Some "cli_a1") (Some "s3cr3t") (Some "13800000000") None None
        (Some grab_stub) Json.dumps no_builtin refuse.

Definition env_direct : Env :=
  mkEnv (Some "cli_a1") (Some "s3cr3t") None None (Some "ou_42")
        (Some grab_stub) Json.dumps no_builtin refuse.

Definition env_no_cv2 : Env :=
  mkEnv (Some "cli_a1") (Some "s3cr3t") None None (Some "ou_42")
        None Json.dumps no_builtin refuse.

Definition env_off : Env :=
  mkEnv (Some "") (Some "s3cr3t") (Some "13800000000") None None
        (Some grab_stub) Json.dumps no_builtin refuse.

Definition env_bare : Env :=
  mkEnv (Some "cli_a1") (Some "s3cr3t") None None None None Json.dumps
        no_builtin refuse.

Definition envelope_ok : json := JDict [("code", JNum 0); ("msg", JStr "ok")].

Definition envelope_bad : json :=
  JDict [("code", JNum 5); ("msg", JStr "bad request")].

Definition envelope_token : json :=
  JDict [("code", JNum 0); ("msg", JStr "ok");
         ("tenant_access_token", JStr "T"); ("expire", JNum 7200)].

(** A token that would last some thirty million years. *)
Definition envelope_forever : json :=
  JDict [("code", JNum 0); ("msg", JStr "ok");
         ("tenant_access_token", JStr "T2"); ("expire", JNum 1000000000000000)].

Definition envelope_users : json :=
  JDict [("code", JNum 0); ("msg", JStr "success");
         ("data",
          JDict [("user_list",
                  JList [JDict [("mobile", JStr "13900000000")];
                         JDict [("user_id", JStr "ou_7");
                                ("mobile", JStr "13800000000")];
                         JDict [("user_id", JStr "ou_8")]])])].

Definition envelope_image : json :=
  JDict [("code", JNum 0); ("msg", JStr "ok");
         ("data", JDict [("image_key", JStr "img_1")])].

Definition envelope_file : json :=
  JDict [("code", JNum 0); ("msg", JStr "ok");
         ("data", JDict [("file_key", JStr "file_1")])].

(** A clock that stands at [t], and boundaries all alike. *)
Definition stopped (t : Z) : nat -> Z := fun _ => t.
Definition one_boundary : nat -> string := fun _ => "b0b0".

(** A bot for [ou_42] holding the token [T] until 7200 s, at time [now]. *)
Definition cached (now : Z) (answers : list json) : Machine :=
  mkMachine (JStr "T") 7200000000 (Some (JStr "ou_42")) [] answers
    (stopped now) 0 one_boundary 0 [].

Definition json_kwargs : Kwargs :=
  mkKwargs None (Some (JDict [("k", JStr "v")])) None None.

(** *** Vocabulary of the further properties *)

(** A computation that leaves an observation [f] of the machine as it was. *)
Definition keeps {A X : Type} (f : Machine -> X) (c : M A) : Prop :=
  forall m, f (snd (c m)) = f m.

(** The warning logged when the module is imported with the gate off. *)
Definition unavailable_message (env : Env) : string :=
  "FEISHU_APP_ID=" ++ repr env (getenv_value (FEISHU_APP_ID env))
  ++ " or FEISHU_APP_SECRET="
  ++ repr env (getenv_value (FEISHU_APP_SECRET env))
  ++ " is not set, feishu bot is unavailable.".
(** An exception other than the configuration error of [get_open_id]. *)
Definition benign (e : exn) : Prop := e <> ValueError unconfigured_message.
(** A request that is not an authentication and carries [tok] as its
    bearer token. *)
Definition authorized (env : Env) (tok : json) (r : Request) : Prop :=
  req_url r <> TENANT_TOKEN_API
  /\ dict_get "authorization" (headers_of r)
     = Some ("Bearer " ++ py_str env tok).

(** A computation that, started with the fresh token [tok] in the
    cache, leaves the cache and the clock alone and sends authorized
    requests only. *)
Definition orderly (env : Env) (tok : json) {A : Type} (c : M A) : Prop :=
  forall m,
    fresh m -> token m = tok ->
    token (snd (c m)) = tok
    /\ expire_at (snd (c m)) = expire_at m
    /\ clock (snd (c m)) = clock m
    /\ exists new,
         sent (snd (c m)) = (sent m ++ new)%list
         /\ Forall (authorized env tok) new.
(** The name [_post_file] gives a stream uploaded without a filename. *)
Definition stream_name (f : FileStream) : string :=
  match f with BufferedReader n _ => basename n | _ => "file" end.

(** The endpoint [_post_file] picks for a kind. *)
Definition upload_endpoint (file_type : string) : string :=
  if (file_type =? "image")%string then UPLOAD_IMAGE_API else UPLOAD_FILE_API.
(** A machine whose descriptor was just created: no token yet. *)
Definition uncached (now : Z) (answers : list json) : Machine :=
  mkMachine (JStr "") now None [] answers (stopped now) 0 one_boundary 0 [].

(** ** The enable gate *)

Lemma ENABLE_spec env :
  ENABLE env = present (FEISHU_APP_ID env) && present (FEISHU_APP_SECRET env)
               && (present (FEISHU_OPEN_ID env) || present (FEISHU_PHONE env)
                   || present (FEISHU_EMAIL env)).
Proof.
  unfold ENABLE, py_all, py_any; simpl.
  destruct (present (FEISHU_APP_ID env)), (present (FEISHU_APP_SECRET env)),
    (present (FEISHU_OPEN_ID env)), (present (FEISHU_PHONE env)),
    (present (FEISHU_EMAIL env)); reflexivity.
Qed.

(** C5: the flag is true exactly when app_id and app_secret are both
    present and one of open_id, phone, email is; taking away app_id, or
    app_secret, or every recipient field makes it false.  Present means
    set to a non-empty string. *)
Theorem C5_enable_iff env :
  (ENABLE env = true <->
     present (FEISHU_APP_ID env) = true /\
     present (FEISHU_APP_SECRET env) = true /\
     (present (FEISHU_OPEN_ID env) = true \/ present (FEISHU_PHONE env) = true
      \/ present (FEISHU_EMAIL env) = true))
  /\ ENABLE (unset_app_id env) = false
  /\ ENABLE (unset_app_secret env) = false
  /\ ENABLE (unset_recipient env) = false.
Proof.
  split; [ split | split; [ | split ] ].
  - intros H. rewrite ENABLE_spec in H.
    apply andb_prop in H as [H Hr]. apply andb_prop in H as [Ha Hs].
    repeat split; trivial.
    apply orb_prop in Hr as [Hr | Hr]; [ apply orb_prop in Hr as [Hr | Hr] | ];
      auto.
  - intros (Ha & Hs & Hr). rewrite ENABLE_spec, Ha, Hs. simpl.
    destruct Hr as [H | [H | H]]; rewrite H; simpl;
      rewrite ?orb_true_r; reflexivity.
  - rewrite ENABLE_spec. reflexivity.
  - rewrite ENABLE_spec. simpl. rewrite andb_false_r. reflexivity.
  - rewrite ENABLE_spec. simpl. apply andb_false_r.
Qed.

(** ** The request primitive *)

Ltac run := unfold bind, ret, raise, lift; simpl.

Lemma _post_run env url tok kwargs m :
  _post env url tok kwargs m =
  (post_outcome env (hd_error (replies m)),
   push (post_request env url tok kwargs) m).
Proof.
  unfold _post, post_request, supplied_headers, push, requests_post.
  run. destruct (replies m) as [| resp rest]; simpl.
  - destruct (kw_headers kwargs), (truthy tok); reflexivity.
  - destruct (getitem resp "code") as [code | e]; simpl.
    + destruct (truthy code); simpl.
      * destruct (getitem resp "msg"); simpl;
          destruct (kw_headers kwargs), (truthy tok); reflexivity.
      * destruct (kw_headers kwargs), (truthy tok); reflexivity.
    + destruct (kw_headers kwargs), (truthy tok); reflexivity.
Qed.

Lemma dict_get_set_same {V} k (v : V) d : dict_get k (dict_set k v d) = Some v.
Proof.
  induction d as [| [k' v'] d IH]; simpl.
  - rewrite String.eqb_refl. reflexivity.
  - destruct (k =? k')%string eqn:E; simpl; rewrite E; auto.
Qed.


(** C4: one call of [_post] whose answer is an envelope with the integer
    [n] in its code field sends one request to [url]; a non-zero [n]
    raises ["Message failed: <msg>"] with the text of the envelope, a
    zero [n] returns the envelope; the request carries
    [authorization: Bearer <token>] when a token is supplied, and when
    none is supplied it carries the headers it was given (JSON content
    type by default), which hold no authorization unless the caller put
    one there. *)
Theorem C4_post_envelope env url tok kwargs m resp rest n
  (Hanswer : replies m = resp :: rest)
  (Hcode : getitem resp "code" = Ok (JNum n)) :
  let out := _post env url tok kwargs m in
  (n = 0%Z -> fst out = Ok resp)
  /\ (n <> 0%Z -> forall text, getitem resp "msg" = Ok (JStr text) ->
        fst out = Raise (ValueError ("Message failed: " ++ text)))
  /\ (exists req,
        sent (snd out) = (sent m ++ [req])%list
        /\ replies (snd out) = rest
        /\ req_url req = url
        /\ (truthy tok = true ->
              dict_get "authorization" (headers_of req)
              = Some ("Bearer " ++ py_str env tok))
        /\ (truthy tok = false ->
              headers_of req = supplied_headers kwargs)).
Proof.
  intros out. subst out. rewrite _post_run, Hanswer. simpl.
  rewrite Hcode. simpl. split; [ | split ].
  - intros ->. reflexivity.
  - intros Hn text Hmsg. destruct (Z.eqb_spec n 0); [ contradiction | ].
    simpl. rewrite Hmsg. reflexivity.
  - exists (post_request env url tok kwargs). unfold push; simpl.
    rewrite Hanswer. repeat split.
    + intros Ht. unfold headers_of, post_request; simpl. rewrite Ht.
      apply dict_get_set_same.
    + intros Ht. unfold headers_of, post_request; simpl. rewrite Ht.
      reflexivity.
Qed.

(** ** The disabled bot *)

Lemma disabled_init env :
  ENABLE env = false -> forall m, FeiShuBot.__init__ env m = (Ok tt, m).
Proof. intros H m. unfold FeiShuBot.__init__. rewrite H. reflexivity. Qed.

(** While the bot is disabled, a call under any name but [token] is
    the logging function. *)
Lemma disabled_invoke env name args m :
  ENABLE env = false -> name <> "token" ->
  FeiShuBot.invoke env name args m =
  (Ok JNull, warn ("FeiShuBot is disabled, " ++ name ++ " is unavailable.") m).
Proof.
  intros H Hname. unfold FeiShuBot.invoke, FeiShuBot.__getattribute__.
  rewrite H. destruct (String.eqb_spec name "token"); [ contradiction | ].
  reflexivity.
Qed.

Lemma public_not_token name : In name public_operations -> name <> "token".
Proof.
  unfold public_operations; simpl.
  intros [<- | [<- | [<- | [<- | [<- | [<- | []]]]]]]; discriminate.
Qed.

(** C1: with the flag off, constructing the bot leaves the machine as
    it was (no resolution, no call), and calling any public operation,
    with any arguments, logs the warning that names the operation, sends
    nothing, consumes no answer, raises nothing and returns [None]. *)
Theorem C1_disabled_noop env (Hoff : ENABLE env = false) :
  (forall m, FeiShuBot.__init__ env m = (Ok tt, m))
  /\ (forall name args m, In name public_operations ->
        let out := FeiShuBot.invoke env name args m in
        (exists r, fst out = Ok r /\ truthy r = false)
        /\ sent (snd out) = sent m
        /\ replies (snd out) = replies m
        /\ warnings (snd out) =
           (warnings m
            ++ [("FeiShuBot is disabled, " ++ name ++ " is unavailable.")%string])%list
        /\ token (snd out) = token m
        /\ user_id (snd out) = user_id m).
Proof.
  split; [ apply disabled_init, Hoff | ].
  intros name args m Hin out. subst out.
  rewrite disabled_invoke by (auto using public_not_token).
  simpl. repeat split. exists JNull. split; reflexivity.
Qed.

(** ** The cached token *)

Lemma stale_run m :
  TenantToken.stale m =
  if truthy (token m)
  then (Ok (expire_at m <? clock m (ticks m))%Z, tick m)
  else (Ok true, m).
Proof.
  unfold TenantToken.stale, get_token, get_expire_at, datetime_now. run.
  destruct (truthy (token m)); reflexivity.
Qed.

Lemma snd_bind {A B} (c : M A) (k : A -> M B) m :
  snd (bind c k m) =
  match fst (c m) with
  | Ok a => snd (k a (snd (c m)))
  | Raise _ => snd (c m)
  end.
Proof. unfold bind. destruct (c m) as [[a | e] m1]; reflexivity. Qed.

(** One run of [request_token], outcome by outcome: the request is
    posted, the token is stored as soon as the answer holds one, and the
    expiry only when the TTL and the date it leads to are in range. *)
Lemma request_token_run env m :
  TenantToken.request_token env m =
  let m1 := push (auth_request env) m in
  match post_outcome env (hd_error (replies m)) with
  | Raise e => (Raise e, m1)
  | Ok resp =>
      match getitem resp "tenant_access_token" with
      | Raise e => (Raise e, m1)
      | Ok t =>
          match getitem resp "expire" with
          | Raise e => (Raise e, store t (expire_at m) m1)
          | Ok x =>
              match timedelta_seconds x with
              | Raise e => (Raise e, store t (expire_at m) m1)
              | Ok delta =>
                  match datetime_add delta (clock m (S (ticks m))) with
                  | Raise e => (Raise e, tick (store t (expire_at m) m1))
                  | Ok until => (Ok tt, store t until (tick m1))
                  end
              end
          end
      end
  end.
Proof.
  unfold TenantToken.request_token. unfold bind at 1. rewrite _post_run.
  fold (auth_request env). cbv zeta.
  destruct (post_outcome env (hd_error (replies m))) as [resp | e];
    [ | reflexivity ].
  unfold set_token, set_expire_at, datetime_now. run.
  destruct (getitem resp "tenant_access_token"); simpl; [ | reflexivity ].
  destruct (getitem resp "expire") as [x | ]; simpl; [ | reflexivity ].
  destruct (timedelta_seconds x) as [delta | ]; simpl; [ | reflexivity ].
  destruct (datetime_add delta (clock m (S (ticks m)))); reflexivity.
Qed.

Lemma request_token_sent env m :
  sent (snd (TenantToken.request_token env m)) = (sent m ++ [auth_request env])%list.
Proof.
  rewrite request_token_run. cbv zeta.
  destruct (post_outcome env (hd_error (replies m))) as [resp | e];
    [ | reflexivity ].
  destruct (getitem resp "tenant_access_token"); [ | reflexivity ].
  destruct (getitem resp "expire") as [x | ]; [ | reflexivity ].
  destruct (timedelta_seconds x) as [delta | ]; [ | reflexivity ].
  destruct (datetime_add delta (clock m (S (ticks m)))); reflexivity.
Qed.

(** The answer of a successful authentication: code 0, a token and a
    TTL in seconds. *)
Lemma request_token_answered env m resp rest t ttl :
  replies m = resp :: rest ->
  getitem resp "code" = Ok (JNum 0) ->
  getitem resp "tenant_access_token" = Ok t ->
  getitem resp "expire" = Ok (JNum ttl) ->
  TenantToken.request_token env m =
  let m1 := push (auth_request env) m in
  if timedelta_in_range ttl then
    if datetime_in_range (ttl * 1000000 + clock m (S (ticks m)))
    then (Ok tt, store t (ttl * 1000000 + clock m (S (ticks m)))%Z (tick m1))
    else (Raise OverflowError, tick (store t (expire_at m) m1))
  else (Raise OverflowError, store t (expire_at m) m1).
Proof.
  intros Hr Hc Ht He. rewrite request_token_run. cbv zeta.
  rewrite Hr. cbn [hd_error post_outcome]. rewrite Hc. cbn [truthy Z.eqb negb].
  rewrite Ht, He. cbn [timedelta_seconds].
  destruct (timedelta_in_range ttl); [ | reflexivity ].
  unfold datetime_add.
  destruct (datetime_in_range (ttl * 1000000 + clock m (S (ticks m))));
    reflexivity.
Qed.

Lemma request_token_ok env m resp rest t ttl :
  replies m = resp :: rest ->
  getitem resp "code" = Ok (JNum 0) ->
  getitem resp "tenant_access_token" = Ok t ->
  getitem resp "expire" = Ok (JNum ttl) ->
  timedelta_in_range ttl = true ->
  datetime_in_range (ttl * 1000000 + clock m (S (ticks m))) = true ->
  TenantToken.request_token env m =
  (Ok tt, store t (ttl * 1000000 + clock m (S (ticks m)))%Z
            (tick (push (auth_request env) m))).
Proof.
  intros Hr Hc Ht He Hd Hu.
  rewrite (request_token_answered env m resp rest t ttl Hr Hc Ht He).
  cbv zeta. rewrite Hd, Hu. reflexivity.
Qed.

Lemma get_unfold env m :
  TenantToken.__get__ env m =
  if truthy (token m) then
    if (expire_at m <? clock m (ticks m))%Z
    then match TenantToken.request_token env (tick m) with
         | (Ok _, m') => (Ok (token m'), m')
         | (Raise e, m') => (Raise e, m')
         end
    else (Ok (token m), tick m)
  else match TenantToken.request_token env m with
       | (Ok _, m') => (Ok (token m'), m')
       | (Raise e, m') => (Raise e, m')
       end.
Proof.
  unfold TenantToken.__get__. unfold bind at 1. rewrite stale_run.
  destruct (truthy (token m)).
  - destruct (expire_at m <? clock m (ticks m))%Z.
    + unfold bind, get_token.
      destruct (TenantToken.request_token env (tick m)) as [[[] | e] m'];
        reflexivity.
    + reflexivity.
  - unfold bind, get_token.
    destruct (TenantToken.request_token env m) as [[[] | e] m']; reflexivity.
Qed.

Lemma get_sent env m :
  sent (snd (TenantToken.__get__ env m))
  = (sent m ++ (if is_stale m then [auth_request env] else []))%list.
Proof.
  rewrite get_unfold. unfold is_stale.
  destruct (truthy (token m)); simpl;
    [ destruct (expire_at m <? clock m (ticks m))%Z | ].
  - pose proof (request_token_sent env (tick m)) as Hs.
    destruct (TenantToken.request_token env (tick m)) as [[[] | e] m'];
      exact Hs.
  - simpl. symmetry. apply List.app_nil_r.
  - pose proof (request_token_sent env m) as Hs.
    destruct (TenantToken.request_token env m) as [[[] | e] m']; exact Hs.
Qed.

Lemma get_stale env m :
  is_stale m = true ->
  TenantToken.__get__ env m =
  match TenantToken.request_token env
          (if truthy (token m) then tick m else m) with
  | (Ok _, m') => (Ok (token m'), m')
  | (Raise e, m') => (Raise e, m')
  end.
Proof.
  unfold is_stale. intros H. rewrite get_unfold.
  destruct (truthy (token m)); simpl in H; [ rewrite H | ]; reflexivity.
Qed.

Lemma token_requests_sent env n : forall m,
  sent (snd (token_requests env n m))
  = (sent m ++ repeat (auth_request env) (stale_requests env n m))%list.
Proof.
  induction n as [| n IH]; intros m; simpl.
  - symmetry. apply List.app_nil_r.
  - rewrite snd_bind. pose proof (get_sent env m) as Hs.
    destruct (TenantToken.__get__ env m) as [[t | e] m1]; simpl in *.
    + rewrite IH, Hs, <- List.app_assoc. f_equal.
      destruct (is_stale m); reflexivity.
    + rewrite Hs, Nat.add_0_r. destruct (is_stale m); reflexivity.
Qed.

(** C2, as the code has it: a request finds the cache stale when no
    token is cached or the cached token's expiry is before the current
    time.  A stale request sends exactly one request, the authentication
    one, and when the service answers with code 0, a token and a TTL, the
    token is stored; the expiry becomes the time read at the instant after
    the request was posted, plus the TTL in seconds, and the token is
    returned, provided the TTL and that date are in the range Python
    gives them; otherwise [OverflowError] is raised with the new token
    stored and the old expiry kept.  Every other request sends nothing and
    returns the cached token, which stays with its expiry.  This holds on
    every machine, and so along every sequence of requests: a run of [n]
    requests sends one authentication request for each request that found
    the cache stale, and nothing else. *)
Theorem C2_token_cache env m :
  let out := TenantToken.__get__ env m in
  let cached := truthy (token m) in
  let now := clock m (ticks m) in
  let posted := if cached then S (ticks m) else ticks m in
  ((cached = false \/ (expire_at m < now)%Z) ->
     sent (snd out) = (sent m ++ [auth_request env])%list
     /\ req_url (auth_request env) = TENANT_TOKEN_API
     /\ forall resp rest t ttl,
          replies m = resp :: rest ->
          getitem resp "code" = Ok (JNum 0) ->
          getitem resp "tenant_access_token" = Ok t ->
          getitem resp "expire" = Ok (JNum ttl) ->
          let until := (clock m (S posted) + ttl * 1000000)%Z in
          token (snd out) = t
          /\ (timedelta_in_range ttl = true ->
              datetime_in_range until = true ->
              fst out = Ok t /\ expire_at (snd out) = until)
          /\ (timedelta_in_range ttl = false
              \/ datetime_in_range until = false ->
              fst out = Raise OverflowError
              /\ expire_at (snd out) = expire_at m))
  /\ (cached = true -> (now <= expire_at m)%Z ->
        fst out = Ok (token m)
        /\ sent (snd out) = sent m
        /\ replies (snd out) = replies m
        /\ token (snd out) = token m
        /\ expire_at (snd out) = expire_at m)
  /\ (forall n,
        sent (snd (token_requests env n m))
        = (sent m ++ repeat (auth_request env) (stale_requests env n m))%list).
Proof.
  intros out cached now posted. subst out cached now posted.
  split; [ | split; [ | intros n; apply token_requests_sent ] ].
  - intros Hstale.
    assert (Hs : is_stale m = true).
    { unfold is_stale. destruct Hstale as [-> | Hlt]; [ reflexivity | ].
      apply Z.ltb_lt in Hlt. rewrite Hlt. apply orb_true_r. }
    split; [ rewrite get_sent, Hs; reflexivity | ].
    split; [ reflexivity | ].
    intros resp rest t ttl Hr Hcode Ht He until.
    rewrite (get_stale env m Hs).
    assert (Hr' : replies (if truthy (token m) then tick m else m) = resp :: rest)
      by (destruct (truthy (token m)); exact Hr).
    rewrite (request_token_answered env _ resp rest t ttl Hr' Hcode Ht He).
    cbv zeta.
    replace (ttl * 1000000
             + clock (if truthy (token m) then tick m else m)
                 (S (ticks (if truthy (token m) then tick m else m))))%Z
      with until
      by (subst until; destruct (truthy (token m)); cbn [tick clock ticks]; lia).
    replace (expire_at (if truthy (token m) then tick m else m))
      with (expire_at m) by (destruct (truthy (token m)); reflexivity).
    destruct (timedelta_in_range ttl); [ destruct (datetime_in_range until) | ];
      cbn [fst snd store tick token expire_at];
      (split; [ reflexivity | ]); split;
        try (intros; split; reflexivity);
        try (intros; discriminate);
        try (intros [? | ?]; discriminate).
  - intros Hc Hle. rewrite get_unfold, Hc.
    apply Z.ltb_ge in Hle. rewrite Hle. simpl. repeat split.
Qed.

(** ** Recipient resolution *)

Lemma calls_to_app url a b :
  calls_to url (a ++ b) = (calls_to url a ++ calls_to url b)%list.
Proof. apply filter_app. Qed.

Lemma quiet_ret {A} (a : A) : quiet (ret a).
Proof. intros m. reflexivity. Qed.

Lemma quiet_raise {A} e : quiet (@raise A e).
Proof. intros m. reflexivity. Qed.

Lemma quiet_lift {A} (r : result A) : quiet (lift r).
Proof. intros m. reflexivity. Qed.

Lemma quiet_bind {A B} (c : M A) (k : A -> M B) :
  quiet c -> (forall a, quiet (k a)) -> quiet (bind c k).
Proof.
  intros Hc Hk m. rewrite snd_bind.
  destruct (fst (c m)); [ rewrite Hk | ]; apply Hc.
Qed.

Lemma quiet_post env url tok kwargs :
  (url =? USER_ID_API)%string = false -> quiet (_post env url tok kwargs).
Proof.
  intros Hurl m. rewrite _post_run. unfold lookups, push; simpl.
  rewrite calls_to_app. simpl. rewrite Hurl. apply List.app_nil_r.
Qed.

Lemma quiet_request_token env : quiet (TenantToken.request_token env).
Proof.
  intros m. unfold lookups. rewrite request_token_sent, calls_to_app.
  apply List.app_nil_r.
Qed.

Lemma quiet_get env : quiet (TenantToken.__get__ env).
Proof.
  intros m. rewrite get_unfold.
  destruct (truthy (token m)); [ destruct (expire_at m <? clock m (ticks m))%Z | ].
  - pose proof (quiet_request_token env (tick m)) as H.
    destruct (TenantToken.request_token env (tick m)) as [[[] | e] m']; exact H.
  - reflexivity.
  - pose proof (quiet_request_token env m) as H.
    destruct (TenantToken.request_token env m) as [[[] | e] m']; exact H.
Qed.

Lemma quiet_get_user_id : quiet get_user_id.
Proof. intros m. unfold get_user_id. destruct (user_id m); reflexivity. Qed.

Lemma quiet_uuid4_hex : quiet uuid4_hex.
Proof. intros m. reflexivity. Qed.

Lemma quiet_logger_warning msg : quiet (logger_warning msg).
Proof. intros m. reflexivity. Qed.

Create HintDb quiet.
#[local] Hint Resolve quiet_ret quiet_raise quiet_lift quiet_get quiet_get_user_id
  quiet_uuid4_hex quiet_logger_warning : quiet.

Ltac quiet_step :=
  match goal with
  | |- quiet (bind _ _) => apply quiet_bind; [ | intros ]
  | |- quiet (_post _ _ _ _) => apply quiet_post; reflexivity
  | |- quiet (if ?b then _ else _) => destruct b
  | |- quiet (match ?x with _ => _ end) => destruct x
  | |- quiet _ => solve [ auto with quiet ]
  end.

Lemma quiet_encoder form_fields : quiet (MultipartEncoder form_fields).
Proof. unfold MultipartEncoder. repeat quiet_step. Qed.

#[local] Hint Resolve quiet_encoder : quiet.

Lemma quiet_send_message env msg_type content :
  quiet (FeiShuBot._send_message env msg_type content).
Proof. unfold FeiShuBot._send_message. repeat quiet_step. Qed.

Lemma quiet_post_file env file_type file filename :
  quiet (FeiShuBot._post_file env file_type file filename).
Proof.
  unfold FeiShuBot._post_file.
  destruct (file_type =? "image")%string; repeat quiet_step.
Qed.

#[local] Hint Resolve quiet_send_message quiet_post_file : quiet.

Lemma quiet_send_text env msg : quiet (FeiShuBot.send_text env msg).
Proof. unfold FeiShuBot.send_text. auto with quiet. Qed.

Lemma quiet_send_image env image : quiet (FeiShuBot.send_image env image).
Proof. unfold FeiShuBot.send_image. repeat quiet_step. Qed.

Lemma quiet_send_file env file file_type filename :
  quiet (FeiShuBot.send_file env file file_type filename).
Proof. unfold FeiShuBot.send_file. repeat quiet_step. Qed.

Lemma quiet_send_audio env audio : quiet (FeiShuBot.send_audio env audio).
Proof. unfold FeiShuBot.send_audio. repeat quiet_step. Qed.

Lemma quiet_send_media env media cover :
  quiet (FeiShuBot.send_media env media cover).
Proof.
  unfold FeiShuBot.send_media. destruct (cv2 env) as [grab | ].
  - apply quiet_bind; [ | intros; repeat quiet_step ].
    destruct (negb (stream_truthy cover)); [ | auto with quiet ].
    destruct media; auto with quiet.
    destruct (grab name); auto with quiet.
  - repeat quiet_step.
Qed.

Lemma quiet_send_card env message header :
  quiet (FeiShuBot.send_card env message header).
Proof. unfold FeiShuBot.send_card. repeat quiet_step. Qed.

#[local] Hint Resolve quiet_send_text quiet_send_image quiet_send_file
  quiet_send_audio quiet_send_media quiet_send_card : quiet.

(** ** Calls through the bot *)

Ltac enter_call Hon :=
  unfold FeiShuBot.invoke, FeiShuBot.__getattribute__,
    FeiShuBot.object_getattribute, FeiShuBot.bound_method;
  rewrite Hon; cbn [String.eqb Ascii.eqb Bool.eqb andb].

(** One method, called with arguments that fit its signature. *)
Ltac typed_method Hon Hty :=
  match goal with
  | |- exists _, call_run _ _ ?args _ /\ _ =>
      destruct args as [| ?a [| ?b [| ?c [| ?d ?rest]]]]
  end;
  cbn [typed_call signature fits String.eqb Ascii.eqb Bool.eqb andb] in Hty;
  repeat match type of Hty with
         | context [FeiShuBot.as_str ?x] =>
             destruct (FeiShuBot.as_str x) eqn:?; cbn [is_some andb] in Hty
         | context [FeiShuBot.as_stream ?x] =>
             destruct (FeiShuBot.as_stream x) eqn:?; cbn [is_some andb] in Hty
         | context [FeiShuBot.as_file ?x] =>
             destruct (FeiShuBot.as_file x) eqn:?; cbn [is_some andb] in Hty
         | context [FeiShuBot.as_object ?x] =>
             destruct (FeiShuBot.as_object x) eqn:?; cbn [is_some andb] in Hty
         end;
  try discriminate;
  (eexists; split;
   [ | intros ?m; enter_call Hon; unfold bind, ret; cbv beta iota;
       repeat match goal with H : _ = Some _ |- _ => rewrite H end;
       cbv beta iota; reflexivity ]);
  constructor.

Lemma invoke_typed env name args :
  In name ("__init__" :: members) -> typed_call name args = true ->
  exists c,
    call_run env name args c
    /\ forall m, FeiShuBot.invoke env name args m = c m.
Proof.
  intros Hin Hty. destruct (ENABLE env) eqn:Hon.
  - simpl in Hin.
    repeat match goal with
           | H : _ \/ _ |- _ => destruct H as [H | H]
           | H : False |- _ => destruct H
           end; subst name.
    + destruct args as [| a rest].
      * eexists; split; [ apply run_init; reflexivity | ].
        intros m. enter_call Hon. reflexivity.
      * exists (raise TypeError); split; [ constructor | ].
        intros m. enter_call Hon. reflexivity.
    + eexists; split; [ apply run_token | ].
      intros m. enter_call Hon. unfold bind, ret.
      destruct (TenantToken.__get__ env m) as [[t | e] m1]; reflexivity.
    + eexists; split; [ apply run_user_id | ].
      intros m. enter_call Hon. unfold bind, ret.
      destruct (get_user_id m) as [[t | e] m1]; reflexivity.
    + typed_method Hon Hty.
    + typed_method Hon Hty.
    + typed_method Hon Hty.
    + typed_method Hon Hty.
    + typed_method Hon Hty.
    + typed_method Hon Hty.
    + typed_method Hon Hty.
    + typed_method Hon Hty.
  - destruct (String.eqb_spec name "token") as [-> | Hname].
    + exists (raise TypeError); split; [ constructor | ].
      intros m. enter_call Hon. reflexivity.
    + exists (FeiShuBot.wrap name args); split; [ constructor; exact Hon | ].
      intros m. unfold FeiShuBot.invoke, FeiShuBot.__getattribute__.
      rewrite Hon. destruct (String.eqb_spec name "token"); [ contradiction | ].
      reflexivity.
Qed.

Lemma member_not_init name : In name members -> name <> "__init__".
Proof.
  unfold members; simpl. intros H.
  repeat match goal with
         | H : _ \/ _ |- _ => destruct H as [H | H]
         | H : False |- _ => destruct H
         end; subst name; discriminate.
Qed.

Lemma quiet_wrap name args : quiet (FeiShuBot.wrap name args).
Proof. unfold FeiShuBot.wrap. repeat quiet_step. Qed.

(** No call of a member of the class looks a recipient up. *)
Lemma quiet_invoke env name args :
  In name members -> typed_call name args = true ->
  quiet (FeiShuBot.invoke env name args).
Proof.
  intros Hin Hty m.
  destruct (invoke_typed env name args (or_intror Hin) Hty) as (c & Hc & Heq).
  rewrite Heq. revert m. change (quiet c).
  destruct Hc;
    try (exfalso; eapply member_not_init; eassumption);
    first [ apply quiet_wrap | solve [ auto with quiet ]
          | solve [ repeat quiet_step ] ].
Qed.

Lemma get_open_id_unconfigured env tok m :
  present (FEISHU_PHONE env) = false -> present (FEISHU_EMAIL env) = false ->
  get_open_id env tok m = (Raise (ValueError unconfigured_message), m).
Proof.
  intros Hp He. unfold get_open_id, py_any. simpl. rewrite Hp, He. reflexivity.
Qed.

Lemma get_open_id_run env tok m :
  present (FEISHU_PHONE env) = true \/ present (FEISHU_EMAIL env) = true ->
  get_open_id env tok m =
  (match post_outcome env (hd_error (replies m)) with
   | Ok resp => resolve env resp
   | Raise e => Raise e
   end,
   push (lookup_request env tok) m).
Proof.
  intros Hconf. unfold get_open_id, py_any. simpl.
  replace (present (FEISHU_PHONE env) || (present (FEISHU_EMAIL env) || false))
    with true
    by (destruct Hconf as [-> | ->]; simpl; rewrite ?orb_true_r; reflexivity).
  simpl. unfold bind at 1. rewrite _post_run. fold (lookup_request env tok).
  destruct (post_outcome env (hd_error (replies m))) as [resp | e];
    [ | reflexivity ].
  unfold resolve. run.
  destruct (getitem resp "data") as [data | ]; simpl; [ | reflexivity ].
  destruct (getitem data "user_list") as [ul | ]; simpl; [ | reflexivity ].
  destruct (iterate ul) as [users | ]; simpl; [ | reflexivity ].
  destruct (first_user_id users) as [[v | ] | ]; reflexivity.
Qed.

Lemma first_user_id_found before u after v :
  Forall lacks_user_id before -> getitem u "user_id" = Ok v ->
  first_user_id (before ++ u :: after)%list = Ok (Some v).
Proof.
  intros Hb Hu. induction Hb as [| x before (d & -> & Hd) _ IH]; simpl.
  - destruct u; try discriminate. simpl in *. unfold dict_has.
    destruct (dict_get "user_id" d); [ | discriminate ].
    inversion Hu. reflexivity.
  - unfold dict_has. rewrite Hd. exact IH.
Qed.

Lemma first_user_id_none users :
  Forall lacks_user_id users -> first_user_id users = Ok None.
Proof.
  induction 1 as [| x users (d & -> & Hd) _ IH]; simpl; [ reflexivity | ].
  unfold dict_has. rewrite Hd. exact IH.
Qed.

Lemma lookups_push_lookup env tok m :
  lookups (push (lookup_request env tok) m)
  = (lookups m ++ [lookup_request env tok])%list.
Proof. unfold lookups, push; simpl. rewrite calls_to_app. reflexivity. Qed.

Lemma quiet_set_user_id v : quiet (set_user_id v).
Proof. intros m. reflexivity. Qed.

Lemma lookups_bind_quiet {A B} (c : M A) (k : A -> M B) m :
  (forall a, quiet (k a)) -> lookups (snd (bind c k m)) = lookups (snd (c m)).
Proof.
  intros Hk. rewrite snd_bind. destruct (fst (c m)); [ apply Hk | reflexivity ].
Qed.

Lemma get_open_id_lookups env tok m :
  length (lookups (snd (get_open_id env tok m))) <= S (length (lookups m)).
Proof.
  destruct (present (FEISHU_PHONE env)) eqn:Hp;
    [ | destruct (present (FEISHU_EMAIL env)) eqn:He ].
  - rewrite get_open_id_run by auto. cbn [snd].
    rewrite lookups_push_lookup, List.length_app. simpl. lia.
  - rewrite get_open_id_run by auto. cbn [snd].
    rewrite lookups_push_lookup, List.length_app. simpl. lia.
  - rewrite get_open_id_unconfigured by assumption. cbn [snd]. lia.
Qed.

Lemma init_lookups env m :
  length (lookups (snd (FeiShuBot.__init__ env m))) <= S (length (lookups m)).
Proof.
  unfold FeiShuBot.__init__.
  destruct (ENABLE env); [ | unfold ret; cbn [negb snd]; lia ].
  cbn [negb]. rewrite lookups_bind_quiet by (apply quiet_set_user_id).
  destruct (present (FEISHU_OPEN_ID env)); [ unfold ret; cbn [snd]; lia | ].
  rewrite snd_bind. pose proof (quiet_get env m) as Hq.
  destruct (fst (TenantToken.__get__ env m)) as [t | e].
  - rewrite <- Hq. apply get_open_id_lookups.
  - rewrite Hq. lia.
Qed.


Lemma enabled_without_open_id env :
  ENABLE env = true -> present (FEISHU_OPEN_ID env) = false ->
  present (FEISHU_PHONE env) = true \/ present (FEISHU_EMAIL env) = true.
Proof.
  rewrite ENABLE_spec. intros H Ho. rewrite Ho in H.
  apply andb_prop in H as [_ H]. simpl in H.
  apply orb_prop in H. exact H.
Qed.

Lemma init_lookup env m t m1 :
  ENABLE env = true -> present (FEISHU_OPEN_ID env) = false ->
  TenantToken.__get__ env m = (Ok t, m1) ->
  lookups (snd (FeiShuBot.__init__ env m))
  = (lookups m ++ [lookup_request env t])%list.
Proof.
  intros Hon Ho Hget. unfold FeiShuBot.__init__. rewrite Hon, Ho. cbn [negb].
  rewrite lookups_bind_quiet by (apply quiet_set_user_id).
  unfold bind. rewrite Hget.
  rewrite get_open_id_run by (apply enabled_without_open_id; assumption).
  cbn [snd]. rewrite lookups_push_lookup.
  pose proof (quiet_get env m) as Hq. rewrite Hget in Hq. cbn [snd] in Hq.
  rewrite Hq. reflexivity.
Qed.

(** C3: constructing the bot adds at most one lookup: none (no request
    at all) when open_id is configured, and exactly one, made with the
    token of the cache, when the bot is enabled without an open_id and
    the token is obtained.  No call of a member of the class, with
    arguments of the types its signature names, adds a lookup afterwards;
    the constructor, called again, constructs again.  [get_open_id]
    without phone and email raises the configuration error on an
    untouched machine.  With phone or email, when the envelope of the
    lookup has code 0 and a list of user records, the result is the
    [user_id] of the first record that holds one, and the lookup error is
    raised when no record holds one. *)
Theorem C3_recipient_resolution env :
  (forall m,
     length (lookups (snd (FeiShuBot.__init__ env m))) <= S (length (lookups m)))
  /\ (forall m, present (FEISHU_OPEN_ID env) = true ->
        sent (snd (FeiShuBot.__init__ env m)) = sent m)
  /\ (forall m t m1,
        ENABLE env = true -> present (FEISHU_OPEN_ID env) = false ->
        TenantToken.__get__ env m = (Ok t, m1) ->
        lookups (snd (FeiShuBot.__init__ env m))
        = (lookups m ++ [lookup_request env t])%list)
  /\ (forall name args m,
        In name members -> typed_call name args = true ->
        lookups (snd (FeiShuBot.invoke env name args m)) = lookups m)
  /\ (forall tok m,
        present (FEISHU_PHONE env) = false ->
        present (FEISHU_EMAIL env) = false ->
        get_open_id env tok m = (Raise (ValueError unconfigured_message), m))
  /\ (forall tok m resp rest data users,
        present (FEISHU_PHONE env) = true \/ present (FEISHU_EMAIL env) = true ->
        replies m = resp :: rest ->
        getitem resp "code" = Ok (JNum 0) ->
        getitem resp "data" = Ok data ->
        getitem data "user_list" = Ok (JList users) ->
        let out := get_open_id env tok m in
        sent (snd out) = (sent m ++ [lookup_request env tok])%list
        /\ (forall before u after v,
              users = (before ++ u :: after)%list ->
              Forall lacks_user_id before ->
              getitem u "user_id" = Ok v ->
              fst out = Ok v)
        /\ (Forall lacks_user_id users ->
              fst out =
              Raise (ValueError
                ("Query open_id failed: no user_id found. body="
                 ++ repr env (JDict (lookup_body env)))))).
Proof.
  split; [ apply init_lookups | ].
  split.
  { intros m Ho. unfold FeiShuBot.__init__.
    destruct (ENABLE env); [ rewrite Ho | ]; reflexivity. }
  split; [ intros m t m1; apply init_lookup | ].
  split; [ intros name args m Hin Hty; apply quiet_invoke; assumption | ].
  split; [ intros; apply get_open_id_unconfigured; assumption | ].
  intros tok m resp rest data users Hconf Hr Hcode Hdata Hlist out.
  subst out. rewrite get_open_id_run by assumption.
  rewrite Hr. simpl. rewrite Hcode. simpl.
  unfold resolve. rewrite Hdata, Hlist. simpl.
  split; [ unfold push; reflexivity | split ].
  - intros before u after v -> Hb Hu.
    rewrite (first_user_id_found before u after v Hb Hu). reflexivity.
  - intros Hnone. rewrite (first_user_id_none users Hnone). reflexivity.
Qed.

(** ** Sending *)

Lemma request_token_user_id env m :
  user_id (snd (TenantToken.request_token env m)) = user_id m.
Proof.
  rewrite request_token_run. cbv zeta.
  destruct (post_outcome env (hd_error (replies m))) as [resp | e];
    [ | reflexivity ].
  destruct (getitem resp "tenant_access_token"); [ | reflexivity ].
  destruct (getitem resp "expire") as [x | ]; [ | reflexivity ].
  destruct (timedelta_seconds x) as [delta | ]; [ | reflexivity ].
  destruct (datetime_add delta (clock m (S (ticks m)))); reflexivity.
Qed.

Lemma get_user_id_kept env m :
  user_id (snd (TenantToken.__get__ env m)) = user_id m.
Proof.
  rewrite get_unfold.
  destruct (truthy (token m)); [ destruct (expire_at m <? clock m (ticks m))%Z | ].
  - pose proof (request_token_user_id env (tick m)) as H.
    destruct (TenantToken.request_token env (tick m)) as [[[] | e] m']; exact H.
  - reflexivity.
  - pose proof (request_token_user_id env m) as H.
    destruct (TenantToken.request_token env m) as [[[] | e] m']; exact H.
Qed.

Lemma get_fresh env m :
  fresh m -> TenantToken.__get__ env m = (Ok (token m), tick m).
Proof.
  intros [Ht Hc]. rewrite get_unfold, Ht.
  destruct (Z.ltb_spec (expire_at m) (clock m (ticks m))) as [Hlt | Hle];
    [ | reflexivity ].
  specialize (Hc (ticks m)). lia.
Qed.




Lemma send_message_run env msg_type content m t m1 uid :
  TenantToken.__get__ env m = (Ok t, m1) ->
  user_id m = Some uid ->
  FeiShuBot._send_message env msg_type content m =
  (post_outcome env (hd_error (replies m1)),
   push (message_request env t uid msg_type content) m1).
Proof.
  intros Hget Huid. unfold FeiShuBot._send_message. unfold bind at 1.
  rewrite Hget. unfold bind, get_user_id.
  pose proof (get_user_id_kept env m) as Hk. rewrite Hget in Hk. simpl in Hk.
  rewrite Hk, Huid. apply _post_run.
Qed.

(** Building the form: the boundary is drawn either way. *)
Lemma encoder_run form_fields m :
  MultipartEncoder form_fields m =
  (if forallb (fun kv => part_encodable (snd kv)) form_fields
   then Ok (mkMultipart form_fields (uuids m (draws m)))
   else Raise no_encode,
   draw m).
Proof.
  unfold MultipartEncoder, uuid4_hex, bind.
  destruct (forallb (fun kv => part_encodable (snd kv)) form_fields);
    reflexivity.
Qed.

Lemma post_file_run env file_type file filename m t m1 :
  TenantToken.__get__ env m = (Ok t, m1) ->
  FeiShuBot._post_file env file_type file filename m =
  if encodable file then
    (match post_outcome env (hd_error (replies m1)) with
     | Ok resp => getitem resp "data"
     | Raise e => Raise e
     end,
     let name :=
       if nonempty filename then filename
       else match file with
            | FStream (BufferedReader n _) => basename n
            | _ => "file"
            end in
     push (if (file_type =? "image")%string
           then upload_request env t UPLOAD_IMAGE_API
                  [("image_type", FieldText "message");
                   ("image", FieldFile name file)]
                  (uuids m1 (draws m1))
           else upload_request env t UPLOAD_FILE_API
                  [("file_type", FieldText file_type);
                   ("file", FieldFile name file);
                   ("filename", FieldText name)]
                  (uuids m1 (draws m1)))
          (draw m1))
  else (Raise no_encode, draw m1).
Proof.
  intros Hget. unfold FeiShuBot._post_file.
  destruct (nonempty filename); cbn [negb];
    destruct (file_type =? "image")%string;
    unfold bind at 1; rewrite Hget;
    unfold bind at 1; rewrite encoder_run;
    cbn [forallb snd part_encodable andb];
    destruct (encodable file); cbn [andb]; try reflexivity;
    unfold bind; rewrite _post_run; simpl;
    destruct (post_outcome env (hd_error (replies m1))); reflexivity.
Qed.


(** ** The text of a message *)

Lemma append_assoc (a b c : string) : ((a ++ b) ++ c = a ++ (b ++ c))%string.
Proof. induction a as [| x a IH]; simpl; [ | rewrite IH ]; reflexivity. Qed.

Lemma parse_string_escape_char c r :
  Json.parse_string (Json.escape_char c ++ r) =
  match Json.parse_string r with
  | Some (t, r') => Some (String c t, r')
  | None => None
  end.
Proof. destruct c as [[] [] [] [] [] [] [] []]; reflexivity. Qed.

(** Decoding a string literal gives back the string that was encoded. *)
Lemma parse_string_escape s rest :
  Json.parse_string (Json.escape s ++ String Json.dquote rest) = Some (s, rest).
Proof.
  induction s as [| c s IH]; simpl.
  - reflexivity.
  - rewrite append_assoc, parse_string_escape_char, IH. reflexivity.
Qed.

(** *** Numbers *)

Lemma take_digits_uint d rest :
  terminated rest = true ->
  Json.take_digits (NilEmpty.string_of_uint d ++ rest)
  = (NilEmpty.string_of_uint d, rest).
Proof.
  intros Hrest. induction d; simpl; try (rewrite IHd; reflexivity).
  destruct rest as [| c r]; simpl; [ reflexivity | ].
  simpl in Hrest. apply andb_prop in Hrest as [Hd _].
  apply negb_true_iff in Hd. rewrite Hd. reflexivity.
Qed.

Lemma to_uint_normal p : Decimal.unorm (Pos.to_uint p) = Pos.to_uint p.
Proof.
  pose proof (DecimalPos.Unsigned.to_of (Pos.to_uint p)) as H.
  rewrite DecimalPos.Unsigned.of_to in H. simpl in H. symmetry. exact H.
Qed.

Lemma to_uint_no_leading_zero p :
  Json.leading_zero (NilEmpty.string_of_uint (Pos.to_uint p)) = false.
Proof.
  pose proof (to_uint_normal p) as Hn.
  pose proof (DecimalPos.Unsigned.to_uint_nonzero p) as Hz.
  destruct (Pos.to_uint p) as [| u | u | u | u | u | u | u | u | u | u ];
    [ reflexivity | | destruct u; reflexivity .. ].
  assert (Hu : u <> Decimal.Nil) by (intros ->; apply Hz; reflexivity).
  rewrite DecimalFacts.unorm_D0 in Hn.
  pose proof (DecimalFacts.nb_digits_unorm u Hu) as Hlen.
  rewrite Hn in Hlen. simpl in Hlen. lia.
Qed.

Lemma next_is_same c r : Json.next_is c (String c r) = Some r.
Proof. unfold Json.next_is. rewrite Ascii.eqb_refl. reflexivity. Qed.

Lemma next_is_minus_uint d rest :
  d <> Decimal.Nil ->
  Json.next_is "-" (NilEmpty.string_of_uint d ++ rest) = None.
Proof. destruct d; [ contradiction | reflexivity .. ]. Qed.

Lemma parse_uint_dumps d rest :
  d <> Decimal.Nil ->
  Json.leading_zero (NilEmpty.string_of_uint d) = false ->
  terminated rest = true ->
  Json.take_digits (NilEmpty.string_of_uint d ++ rest)
  = (NilEmpty.string_of_uint d, rest)
  /\ nonempty (NilEmpty.string_of_uint d) = true
  /\ Json.floatish rest = false
  /\ NilZero.uint_of_string (NilEmpty.string_of_uint d) = Some d.
Proof.
  intros Hd Hz Hrest. split; [ apply take_digits_uint, Hrest | ].
  split; [ destruct d; [ contradiction | reflexivity .. ] | ].
  split.
  - destruct rest; [ reflexivity | ]. simpl in Hrest.
    apply andb_prop in Hrest as [_ H]. apply negb_true_iff in H. exact H.
  - pose proof (NilZero.usu d Hd) as H.
    destruct d; [ contradiction | exact H .. ].
Qed.

Lemma parse_int_digits d rest :
  d <> Decimal.Nil ->
  Json.leading_zero (NilEmpty.string_of_uint d) = false ->
  terminated rest = true ->
  Json.parse_int (NilEmpty.string_of_uint d ++ rest) = Some (Z.of_uint d, rest)
  /\ Json.parse_int (String "-" (NilEmpty.string_of_uint d ++ rest))
     = Some ((- Z.of_uint d)%Z, rest).
Proof.
  intros Hnil Hz Hrest.
  destruct (parse_uint_dumps d rest Hnil Hz Hrest) as (Ht & Hne & Hf & Hu).
  unfold Json.parse_int. split.
  - rewrite next_is_minus_uint by exact Hnil.
    rewrite Ht, Hne, Hz, Hf, Hu. reflexivity.
  - rewrite next_is_same. rewrite Ht, Hne, Hz, Hf, Hu. reflexivity.
Qed.

Lemma string_of_uint_nonnil d :
  d <> Decimal.Nil -> NilZero.string_of_uint d = NilEmpty.string_of_uint d.
Proof. destruct d; [ contradiction | reflexivity .. ]. Qed.

(** Decoding the decimal text of an integer gives the integer back. *)
Lemma parse_int_dumps n rest :
  terminated rest = true ->
  Json.parse_int (NilZero.string_of_int (Z.to_int n) ++ rest) = Some (n, rest).
Proof.
  intros Hrest. destruct n as [| p | p].
  - apply (parse_int_digits Decimal.zero rest); [ discriminate | reflexivity | exact Hrest ].
  - assert (Hnil : Pos.to_uint p <> Decimal.Nil)
      by apply DecimalPos.Unsigned.to_uint_nonnil.
    simpl Z.to_int. unfold NilZero.string_of_int.
    rewrite string_of_uint_nonnil by exact Hnil.
    destruct (parse_int_digits _ rest Hnil (to_uint_no_leading_zero p) Hrest)
      as [H _].
    rewrite H. do 2 f_equal.
    change (Z.of_int (Z.to_int (Z.pos p)) = Z.pos p). apply DecimalZ.of_to.
  - assert (Hnil : Pos.to_uint p <> Decimal.Nil)
      by apply DecimalPos.Unsigned.to_uint_nonnil.
    simpl Z.to_int. unfold NilZero.string_of_int.
    rewrite string_of_uint_nonnil by exact Hnil.
    destruct (parse_int_digits _ rest Hnil (to_uint_no_leading_zero p) Hrest)
      as [_ H].
    simpl append. rewrite H. do 2 f_equal.
    change (Z.of_int (Z.to_int (Z.neg p)) = Z.neg p). apply DecimalZ.of_to.
Qed.

(** *** Values *)

Lemma uint_starts d rest :
  d <> Decimal.Nil -> starts_value (NilEmpty.string_of_uint d ++ rest).
Proof. destruct d; [ contradiction | .. ]; intros _; repeat split. Qed.

Lemma dumps_starts j rest : starts_value (Json.dumps j ++ rest).
Proof.
  destruct j as [| [] | n | s | l | d]; try (repeat split; fail).
  destruct n as [| p | p]; try (repeat split; fail).
  simpl Json.dumps. unfold NilZero.string_of_int.
  rewrite string_of_uint_nonnil by apply DecimalPos.Unsigned.to_uint_nonnil.
  apply uint_starts, DecimalPos.Unsigned.to_uint_nonnil.
Qed.

Lemma parse_value_number c r fuel :
  Json.is_digit c = true \/ c = "-"%char ->
  Json.parse_value (S fuel) (String c r) =
  match Json.parse_int (String c r) with
  | Some (z, r') => Some (JNum z, r')
  | None => None
  end.
Proof.
  intros [H | ->]; [ | reflexivity ].
  destruct c as [[] [] [] [] [] [] [] []]; try discriminate H; reflexivity.
Qed.

Lemma int_head n rest :
  exists c r, NilZero.string_of_int (Z.to_int n) ++ rest = String c r
              /\ (Json.is_digit c = true \/ c = "-"%char).
Proof.
  destruct n as [| p | p]; simpl; eauto.
  unfold NilZero.string_of_uint.
  pose proof (DecimalPos.Unsigned.to_uint_nonnil p) as H.
  destruct (Pos.to_uint p); [ contradiction | .. ]; simpl; eauto.
Qed.


Lemma join_starts l rest :
  l <> [] -> starts_value (Json.join ", " (map Json.dumps l) ++ rest).
Proof.
  destruct l as [| y [| z l]]; intros H; [ contradiction | apply dumps_starts | ].
  change (Json.join ", " (map Json.dumps (y :: z :: l)))
    with (Json.dumps y ++ ", " ++ Json.join ", " (map Json.dumps (z :: l))).
  rewrite append_assoc. apply dumps_starts.
Qed.

Lemma parse_elements_eq fuel s acc :
  Json.parse_elements (S fuel) s acc =
  match Json.parse_value fuel s with
  | Some (v, r) =>
      match Json.next_is "," (Json.skip_ws r) with
      | Some r' => Json.parse_elements fuel (Json.skip_ws r') (acc ++ [v])%list
      | None =>
          match Json.next_is "]" (Json.skip_ws r) with
          | Some r' => Some (JList (acc ++ [v])%list, r')
          | None => None
          end
      end
  | None => None
  end.
Proof. reflexivity. Qed.

Lemma parse_elements_dumps l :
  Forall round_trips l -> Forall distinct_keys l -> l <> [] ->
  forall fuel acc rest,
    sizes l <= fuel ->
    Json.parse_elements fuel
      (Json.join ", " (map Json.dumps l) ++ String "]" rest) acc
    = Some (JList (acc ++ l)%list, rest).
Proof.
  induction 1 as [| x l Hx Hl IH]; intros Hwf Hne fuel acc rest Hfuel;
    [ contradiction | ].
  inversion Hwf as [| ? ? Hwx Hwl]; subst.
  change (sizes (x :: l)) with (S (size x + sizes l)) in Hfuel.
  destruct fuel as [| fuel]; [ lia | ].
  rewrite parse_elements_eq.
  destruct l as [| y l].
  - change (Json.join ", " (map Json.dumps [x])) with (Json.dumps x).
    rewrite (Hx Hwx fuel (String "]" rest)) by (lia || reflexivity).
    reflexivity.
  - change (Json.join ", " (map Json.dumps (x :: y :: l)))
      with (Json.dumps x ++ ", " ++ Json.join ", " (map Json.dumps (y :: l))).
    rewrite !append_assoc.
    rewrite (Hx Hwx fuel) by (lia || reflexivity).
    change (Json.parse_elements fuel
              (Json.skip_ws (Json.join ", " (map Json.dumps (y :: l))
                             ++ String "]" rest)) (acc ++ [x])%list
            = Some (JList (acc ++ x :: y :: l)%list, rest)).
    destruct (join_starts (y :: l) (String "]" rest)) as (Hskip & _);
      [ discriminate | ].
    rewrite Hskip, IH by (assumption || discriminate || lia).
    rewrite <- List.app_assoc. reflexivity.
Qed.

Lemma member_shape k v tail :
  member (k, v) ++ tail =
  String Json.dquote
    (Json.escape k
     ++ String Json.dquote (String ":" (String " " (Json.dumps v ++ tail)))).
Proof.
  unfold member, Json.quote. simpl fst. simpl snd.
  change (String Json.dquote (Json.escape k ++ String Json.dquote "")
          ++ ": " ++ Json.dumps v)
    with (String Json.dquote
            ((Json.escape k ++ String Json.dquote "") ++ ": " ++ Json.dumps v)).
  change (String Json.dquote
            ((Json.escape k ++ String Json.dquote "") ++ ": " ++ Json.dumps v)
          ++ tail)
    with (String Json.dquote
            (((Json.escape k ++ String Json.dquote "") ++ ": " ++ Json.dumps v)
             ++ tail)).
  rewrite !append_assoc. reflexivity.
Qed.

Lemma members_start d rest :
  d <> [] ->
  exists body, Json.join ", " (map member d) ++ rest = String Json.dquote body.
Proof.
  destruct d as [| [k v] [| kv d]]; intros H; [ contradiction | | ].
  - change (Json.join ", " (map member [(k, v)])) with (member (k, v)).
    rewrite member_shape. eauto.
  - change (Json.join ", " (map member ((k, v) :: kv :: d)))
      with (member (k, v) ++ ", " ++ Json.join ", " (map member (kv :: d))).
    rewrite append_assoc, member_shape. eauto.
Qed.

Lemma parse_members_eq fuel s acc :
  Json.parse_members (S fuel) s acc =
  match Json.next_is Json.dquote s with
  | Some r =>
      match Json.parse_string r with
      | Some (k, r1) =>
          match Json.next_is ":" (Json.skip_ws r1) with
          | Some r2 =>
              match Json.parse_value fuel (Json.skip_ws r2) with
              | Some (v, r3) =>
                  match Json.next_is "," (Json.skip_ws r3) with
                  | Some r4 =>
                      Json.parse_members fuel (Json.skip_ws r4)
                        (acc ++ [(k, v)])%list
                  | None =>
                      match Json.next_is "}" (Json.skip_ws r3) with
                      | Some r4 =>
                          Some (JDict (Json.dict_of_pairs (acc ++ [(k, v)])%list),
                                r4)
                      | None => None
                      end
                  end
              | None => None
              end
          | None => None
          end
      | None => None
      end
  | None => None
  end.
Proof. reflexivity. Qed.

Lemma parse_members_dumps d :
  Forall (fun kv => round_trips (snd kv)) d ->
  Forall (fun kv => distinct_keys (snd kv)) d -> d <> [] ->
  forall fuel acc rest,
    member_sizes d <= fuel ->
    Json.parse_members fuel
      (Json.join ", " (map member d) ++ String "}" rest) acc
    = Some (JDict (Json.dict_of_pairs (acc ++ d)%list), rest).
Proof.
  induction 1 as [| [k v] d Hv Hd IH]; intros Hwf Hne fuel acc rest Hfuel;
    [ contradiction | ].
  inversion Hwf as [| ? ? Hwv Hwd]; subst. simpl in Hv, Hwv.
  change (member_sizes ((k, v) :: d)) with (S (size v + member_sizes d)) in Hfuel.
  destruct fuel as [| fuel]; [ lia | ].
  rewrite parse_members_eq.
  destruct d as [| kv d].
  - change (Json.join ", " (map member [(k, v)])) with (member (k, v)).
    rewrite member_shape, next_is_same, parse_string_escape.
    change (Json.next_is ":" (Json.skip_ws
              (String ":" (String " " (Json.dumps v ++ String "}" rest)))))
      with (Some (String " " (Json.dumps v ++ String "}" rest))).
    cbv beta iota.
    change (Json.skip_ws (String " " (Json.dumps v ++ String "}" rest)))
      with (Json.skip_ws (Json.dumps v ++ String "}" rest)).
    destruct (dumps_starts v (String "}" rest)) as (Hskip & _).
    rewrite Hskip, (Hv Hwv fuel) by (lia || reflexivity).
    reflexivity.
  - change (Json.join ", " (map member ((k, v) :: kv :: d)))
      with (member (k, v) ++ ", " ++ Json.join ", " (map member (kv :: d))).
    rewrite !append_assoc, member_shape, next_is_same, parse_string_escape.
    set (tail := ", " ++ Json.join ", " (map member (kv :: d)) ++ String "}" rest).
    change (Json.next_is ":" (Json.skip_ws
              (String ":" (String " " (Json.dumps v ++ tail)))))
      with (Some (String " " (Json.dumps v ++ tail))).
    cbv beta iota.
    change (Json.skip_ws (String " " (Json.dumps v ++ tail)))
      with (Json.skip_ws (Json.dumps v ++ tail)).
    destruct (dumps_starts v tail) as (Hskip & _).
    rewrite Hskip, (Hv Hwv fuel) by (lia || reflexivity).
    subst tail.
    change (Json.parse_members fuel
              (Json.skip_ws (Json.join ", " (map member (kv :: d))
                             ++ String "}" rest)) (acc ++ [(k, v)])%list
            = Some (JDict (Json.dict_of_pairs (acc ++ (k, v) :: kv :: d)%list),
                    rest)).
    destruct (members_start (kv :: d) (String "}" rest)) as [body Hbody];
      [ discriminate | ].
    rewrite Hbody.
    change (Json.skip_ws (String Json.dquote body)) with (String Json.dquote body).
    rewrite <- Hbody, IH by (assumption || discriminate || lia).
    rewrite <- List.app_assoc. reflexivity.
Qed.

Lemma dict_set_new {V} k (v : V) d :
  ~ In k (map fst d) -> dict_set k v d = (d ++ [(k, v)])%list.
Proof.
  induction d as [| [k' v'] d IH]; simpl; intros H; [ reflexivity | ].
  destruct (String.eqb_spec k k') as [-> | _]; [ tauto | ].
  rewrite IH by tauto. reflexivity.
Qed.

Lemma fold_dict_set_distinct (d acc : list (string * json)) :
  NoDup (map fst (acc ++ d)%list) ->
  fold_left (fun a kv => dict_set (fst kv) (snd kv) a) d acc = (acc ++ d)%list.
Proof.
  revert acc. induction d as [| [k v] d IH]; intros acc H; simpl.
  - symmetry. apply List.app_nil_r.
  - rewrite dict_set_new.
    + rewrite IH; rewrite <- List.app_assoc; [ reflexivity | exact H ].
    + rewrite map_app in H. simpl in H.
      apply NoDup_remove_2 in H. intros Hin. apply H.
      apply in_or_app. left. exact Hin.
Qed.

Lemma dict_of_pairs_distinct d :
  NoDup (map fst d) -> Json.dict_of_pairs d = d.
Proof. intros H. apply (fold_dict_set_distinct d []). exact H. Qed.

(** Every value round-trips, with enough fuel and before any text that
    does not extend a number. *)
Lemma parse_value_dumps : forall j, round_trips j.
Proof.
  apply json_nested_ind; unfold round_trips.
  - intros _ [| fuel] rest Hf _; [ simpl in Hf; lia | reflexivity ].
  - intros b _ [| fuel] rest Hf _; [ simpl in Hf; lia | ].
    destruct b; reflexivity.
  - intros n _ [| fuel] rest Hf Hrest; [ simpl in Hf; lia | ].
    simpl Json.dumps.
    destruct (int_head n rest) as (c & r & Hs & Hc).
    rewrite Hs, parse_value_number by exact Hc.
    rewrite <- Hs, parse_int_dumps by exact Hrest. reflexivity.
  - intros s _ [| fuel] rest Hf _; [ simpl in Hf; lia | ].
    simpl Json.dumps. unfold Json.quote.
    change (String Json.dquote (Json.escape s ++ String Json.dquote "") ++ rest)
      with (String Json.dquote
              ((Json.escape s ++ String Json.dquote "") ++ rest)).
    rewrite append_assoc.
    change (String Json.dquote "" ++ rest) with (String Json.dquote rest).
    change (Json.parse_value (S fuel)
              (String Json.dquote (Json.escape s ++ String Json.dquote rest)))
      with (match Json.parse_string (Json.escape s ++ String Json.dquote rest) with
            | Some (t, r') => Some (JStr t, r')
            | None => None
            end).
    rewrite parse_string_escape. reflexivity.
  - intros l IH Hwf [| fuel] rest Hf _; [ simpl in Hf; lia | ].
    inversion Hwf as [| | | | ? Hall | ]; subst.
    destruct l as [| x l]; [ reflexivity | ].
    change (Json.dumps (JList (x :: l)))
      with ("[" ++ Json.join ", " (map Json.dumps (x :: l)) ++ "]").
    change (("[" ++ Json.join ", " (map Json.dumps (x :: l)) ++ "]") ++ rest)
      with (String "[" ((Json.join ", " (map Json.dumps (x :: l)) ++ "]") ++ rest)).
    rewrite append_assoc. change ("]" ++ rest) with (String "]" rest).
    destruct (join_starts (x :: l) (String "]" rest))
      as (Hskip & Hclose & _); [ discriminate | ].
    change (Json.parse_value (S fuel)
              (String "[" (Json.join ", " (map Json.dumps (x :: l))
                           ++ String "]" rest)))
      with (match Json.next_is "]"
                    (Json.skip_ws (Json.join ", " (map Json.dumps (x :: l))
                                   ++ String "]" rest)) with
            | Some r' => Some (JList [], r')
            | None =>
                Json.parse_elements fuel
                  (Json.skip_ws (Json.join ", " (map Json.dumps (x :: l))
                                 ++ String "]" rest)) []
            end).
    rewrite Hskip, Hclose.
    apply (parse_elements_dumps (x :: l) IH Hall); [ discriminate | ].
    simpl in Hf. unfold sizes. simpl. lia.
  - intros d IH Hwf [| fuel] rest Hf _; [ simpl in Hf; lia | ].
    inversion Hwf as [| | | | | ? Hkeys Hall]; subst.
    destruct d as [| kv d]; [ reflexivity | ].
    change (Json.dumps (JDict (kv :: d)))
      with ("{" ++ Json.join ", " (map member (kv :: d)) ++ "}").
    change (("{" ++ Json.join ", " (map member (kv :: d)) ++ "}") ++ rest)
      with (String "{" ((Json.join ", " (map member (kv :: d)) ++ "}") ++ rest)).
    rewrite append_assoc. change ("}" ++ rest) with (String "}" rest).
    destruct (members_start (kv :: d) (String "}" rest)) as [body Hbody];
      [ discriminate | ].
    change (Json.parse_value (S fuel)
              (String "{" (Json.join ", " (map member (kv :: d))
                           ++ String "}" rest)))
      with (match Json.next_is "}"
                    (Json.skip_ws (Json.join ", " (map member (kv :: d))
                                   ++ String "}" rest)) with
            | Some r' => Some (JDict [], r')
            | None =>
                Json.parse_members fuel
                  (Json.skip_ws (Json.join ", " (map member (kv :: d))
                                 ++ String "}" rest)) []
            end).
    rewrite Hbody.
    change (Json.skip_ws (String Json.dquote body)) with (String Json.dquote body).
    change (Json.next_is "}" (String Json.dquote body)) with (@None string).
    cbv beta iota. rewrite <- Hbody.
    rewrite (parse_members_dumps (kv :: d) IH Hall)
      by (discriminate || (simpl in Hf; unfold member_sizes; simpl; lia)).
    simpl app. rewrite dict_of_pairs_distinct by exact Hkeys. reflexivity.
Qed.

Lemma append_empty s : s ++ "" = s.
Proof. induction s as [| c s IH]; simpl; [ | rewrite IH ]; reflexivity. Qed.

Lemma length_append a b :
  String.length (a ++ b) = String.length a + String.length b.
Proof. induction a as [| c a IH]; simpl; [ | rewrite IH ]; reflexivity. Qed.

Lemma sizes_le_length l :
  Forall (fun x => size x <= String.length (Json.dumps x)) l ->
  sizes l <= S (String.length (Json.join ", " (map Json.dumps l))).
Proof.
  induction 1 as [| x l Hx Hl IH]; [ simpl; lia | ].
  change (sizes (x :: l)) with (S (size x + sizes l)).
  destruct l as [| y l].
  - change (Json.join ", " (map Json.dumps [x])) with (Json.dumps x).
    change (sizes []) with 0. lia.
  - change (Json.join ", " (map Json.dumps (x :: y :: l)))
      with (Json.dumps x ++ ", " ++ Json.join ", " (map Json.dumps (y :: l))).
    rewrite !length_append. change (String.length ", ") with 2. lia.
Qed.

Lemma member_sizes_le_length d :
  Forall (fun kv => size (snd kv) <= String.length (Json.dumps (snd kv))) d ->
  member_sizes d <= S (String.length (Json.join ", " (map member d))).
Proof.
  induction 1 as [| [k v] d Hv Hd IH]; [ simpl; lia | ].
  change (member_sizes ((k, v) :: d)) with (S (size v + member_sizes d)).
  simpl in Hv.
  assert (Hm : size v <= String.length (member (k, v))).
  { unfold member. rewrite !length_append. simpl. lia. }
  destruct d as [| kv d].
  - change (Json.join ", " (map member [(k, v)])) with (member (k, v)).
    change (member_sizes []) with 0. lia.
  - change (Json.join ", " (map member ((k, v) :: kv :: d)))
      with (member (k, v) ++ ", " ++ Json.join ", " (map member (kv :: d))).
    rewrite !length_append. change (String.length ", ") with 2. lia.
Qed.

(** The fuel [loads] gives is enough. *)
Lemma size_le_length : forall j, size j <= String.length (Json.dumps j).
Proof.
  apply json_nested_ind.
  - simpl. lia.
  - intros []; simpl; lia.
  - intros n. destruct (int_head n "") as (c & r & Hs & _).
    rewrite append_empty in Hs. simpl Json.dumps. rewrite Hs. simpl. lia.
  - intros s. simpl. lia.
  - intros l IH. apply sizes_le_length in IH.
    change (Json.dumps (JList l))
      with ("[" ++ Json.join ", " (map Json.dumps l) ++ "]").
    rewrite !length_append. change (size (JList l)) with (S (sizes l)).
    change (String.length "[") with 1. change (String.length "]") with 1. lia.
  - intros d IH. apply member_sizes_le_length in IH.
    change (Json.dumps (JDict d)) with ("{" ++ Json.join ", " (map member d) ++ "}").
    rewrite !length_append. change (size (JDict d)) with (S (member_sizes d)).
    change (String.length "{") with 1. change (String.length "}") with 1. lia.
Qed.

(** [json.loads(json.dumps(j)) == j]. *)
Lemma loads_dumps j :
  distinct_keys j -> Json.loads (Json.dumps j) = Some j.
Proof.
  intros Hwf. unfold Json.loads.
  destruct (dumps_starts j "") as (Hskip & _). rewrite append_empty in Hskip.
  rewrite Hskip.
  pose proof (parse_value_dumps j Hwf (S (String.length (Json.dumps j))) "") as H.
  rewrite append_empty in H. rewrite H; [ reflexivity | | reflexivity ].
  pose proof (size_le_length j). lia.
Qed.

Lemma loads_dumps_text msg :
  Json.loads (Json.dumps (JDict [("text", JStr msg)]))
  = Some (JDict [("text", JStr msg)]).
Proof.
  apply loads_dumps. constructor.
  - simpl. constructor; [ intros [] | constructor ].
  - repeat constructor.
Qed.



(** ** Media *)

Lemma send_media_without_cv2 env media cover m :
  cv2 env = None ->
  FeiShuBot.send_media env media cover m =
  (Ok (JDict []),
   warn "opencv-python is not installed, send_media is unavailable" m).
Proof. intros H. unfold FeiShuBot.send_media. rewrite H. reflexivity. Qed.

Lemma send_media_run env grab media cover m uid r1 r2 r3 rest d1 d2 :
  cv2 env = Some grab ->
  stream_truthy cover = true ->
  encodable (FStream media) = true ->
  encodable (FStream cover) = true ->
  fresh m ->
  user_id m = Some uid ->
  replies m = r1 :: r2 :: r3 :: rest ->
  getitem r1 "code" = Ok (JNum 0) ->
  getitem r2 "code" = Ok (JNum 0) ->
  getitem r3 "code" = Ok (JNum 0) ->
  getitem r1 "data" = Ok (JDict d1) ->
  getitem r2 "data" = Ok (JDict d2) ->
  let name (f : FileStream) :=
    match f with BufferedReader n _ => basename n | _ => "file" end in
  let q1 :=
    upload_request env (token m) UPLOAD_FILE_API
      [("file_type", FieldText "mp4");
       ("file", FieldFile (name media) (FStream media));
       ("filename", FieldText (name media))]
      (uuids m (draws m)) in
  let q2 :=
    upload_request env (token m) UPLOAD_IMAGE_API
      [("image_type", FieldText "message");
       ("image", FieldFile (name cover) (FStream cover))]
      (uuids m (S (draws m))) in
  let q3 :=
    message_request env (token m) uid "media" (JDict (dict_merge d1 d2)) in
  FeiShuBot.send_media env media cover m =
  (Ok r3, push q3 (tick (push q2 (draw (tick (push q1 (draw (tick m)))))))).
Proof.
  intros Hcv Hcover Hmedia Hcov Hfresh Huid Hr Hc1 Hc2 Hc3 Hd1 Hd2 name q1 q2 q3.
  unfold FeiShuBot.send_media. rewrite Hcv, Hcover.
  cbn [negb]. unfold bind at 1. unfold ret at 1.
  unfold bind at 1.
  rewrite (post_file_run env "mp4" (FStream media) "" m (token m) (tick m)
             (get_fresh env m Hfresh)).
  rewrite Hmedia.
  cbn [nonempty String.eqb Ascii.eqb Bool.eqb]. simpl replies.
  rewrite Hr. cbn [hd_error post_outcome]. rewrite Hc1.
  cbn [truthy Z.eqb negb]. rewrite Hd1.
  fold (name media). change (uuids (tick m) (draws (tick m))) with (uuids m (draws m)).
  fold q1.
  set (ma := push q1 (draw (tick m))).
  assert (Hfa : fresh ma) by exact Hfresh.
  unfold bind at 1.
  rewrite (post_file_run env "image" (FStream cover) "" ma (token ma) (tick ma)
             (get_fresh env ma Hfa)).
  rewrite Hcov.
  cbn [nonempty]. change ("image" =? "image")%string with true. cbv iota.
  assert (Hra : replies (tick ma) = r2 :: r3 :: rest).
  { change (tl (replies m) = r2 :: r3 :: rest). rewrite Hr. reflexivity. }
  rewrite Hra. cbn [hd_error post_outcome]. rewrite Hc2.
  cbn [truthy Z.eqb negb]. rewrite Hd2.
  fold (name cover).
  change (uuids (tick ma) (draws (tick ma))) with (uuids m (S (draws m))).
  change (token ma) with (token m). fold q2.
  set (mb := push q2 (draw (tick ma))).
  assert (Hfb : fresh mb) by exact Hfresh.
  unfold bind at 1. unfold lift at 1. cbn [py_or].
  rewrite (send_message_run env "media" (JDict (dict_merge d1 d2)) mb
             (token mb) (tick mb) uid (get_fresh env mb Hfb) Huid).
  assert (Hrb : replies (tick mb) = r3 :: rest).
  { change (tl (replies (tick ma)) = r3 :: rest). rewrite Hra. reflexivity. }
  rewrite Hrb. cbn [hd_error post_outcome]. rewrite Hc3.
  cbn [truthy Z.eqb negb]. reflexivity.
Qed.

Lemma send_media_bytearray env grab b cover m :
  cv2 env = Some grab ->
  stream_truthy cover = true ->
  fresh m ->
  FeiShuBot.send_media env (ByteArray b) cover m
  = (Raise no_encode, draw (tick m)).
Proof.
  intros Hcv Hcover Hfresh.
  unfold FeiShuBot.send_media. rewrite Hcv, Hcover.
  cbn [negb]. unfold bind at 1. unfold ret at 1.
  unfold bind at 1.
  rewrite (post_file_run env "mp4" (FStream (ByteArray b)) "" m (token m)
             (tick m) (get_fresh env m Hfresh)).
  reflexivity.
Qed.

Lemma send_media_cover_bytearray env grab media b m r1 rest d1 :
  cv2 env = Some grab ->
  stream_truthy (ByteArray b) = true ->
  encodable (FStream media) = true ->
  fresh m ->
  replies m = r1 :: rest ->
  getitem r1 "code" = Ok (JNum 0) ->
  getitem r1 "data" = Ok d1 ->
  let name :=
    match media with BufferedReader n _ => basename n | _ => "file" end in
  let q1 :=
    upload_request env (token m) UPLOAD_FILE_API
      [("file_type", FieldText "mp4");
       ("file", FieldFile name (FStream media));
       ("filename", FieldText name)]
      (uuids m (draws m)) in
  FeiShuBot.send_media env media (ByteArray b) m
  = (Raise no_encode, draw (tick (push q1 (draw (tick m))))).
Proof.
  intros Hcv Hcover Hmedia Hfresh Hr Hc1 Hd1 name q1.
  unfold FeiShuBot.send_media. rewrite Hcv, Hcover.
  cbn [negb]. unfold bind at 1. unfold ret at 1.
  unfold bind at 1.
  rewrite (post_file_run env "mp4" (FStream media) "" m (token m) (tick m)
             (get_fresh env m Hfresh)).
  rewrite Hmedia.
  cbn [nonempty String.eqb Ascii.eqb Bool.eqb]. simpl replies.
  rewrite Hr. cbn [hd_error post_outcome]. rewrite Hc1.
  cbn [truthy Z.eqb negb]. rewrite Hd1.
  fold name. change (uuids (tick m) (draws (tick m))) with (uuids m (draws m)).
  fold q1.
  set (ma := push q1 (draw (tick m))).
  assert (Hfa : fresh ma) by exact Hfresh.
  unfold bind at 1.
  rewrite (post_file_run env "image" (FStream (ByteArray b)) "" ma (token ma)
             (tick ma) (get_fresh env ma Hfa)).
  reflexivity.
Qed.


(** ** What the operations return *)

Lemma post_outcome_dict env answer v :
  post_outcome env answer = Ok v -> exists d, v = JDict d.
Proof.
  unfold post_outcome. destruct answer as [resp | ]; [ | discriminate ].
  destruct resp; simpl; try discriminate.
  destruct (dict_get "code" d) as [code | ]; [ | discriminate ].
  destruct (truthy code).
  - destruct (dict_get "msg" d); discriminate.
  - intros H. inversion H. eauto.
Qed.

Lemma send_message_dict env msg_type content m v m' :
  FeiShuBot._send_message env msg_type content m = (Ok v, m') ->
  exists d, v = JDict d.
Proof.
  unfold FeiShuBot._send_message, bind.
  destruct (TenantToken.__get__ env m) as [[t | e] m1]; [ | discriminate ].
  destruct (get_user_id m1) as [[uid | e] m2]; [ | discriminate ].
  rewrite _post_run. intros H. inversion H.
  eapply post_outcome_dict; eauto.
Qed.

Lemma after_upload_returns env msg_type file_type file filename :
  returns_send_response env msg_type
    (handle <- FeiShuBot._post_file env file_type file filename ;;
     FeiShuBot._send_message env msg_type handle).
Proof.
  intros m v m'. unfold bind.
  destruct (FeiShuBot._post_file env file_type file filename m)
    as [[handle | e] m1]; [ | discriminate ].
  intros H. exists handle, m1. exact H.
Qed.


(* ================================================================= *)
(** * Further properties *)

(** ** What the operations leave alone *)

Section Keeps.
Context {X : Type} (f : Machine -> X).
Hypothesis Hpush : forall r m, f (push r m) = f m.
Hypothesis Htick : forall m, f (tick m) = f m.
Hypothesis Hdraw : forall m, f (draw m) = f m.
Hypothesis Hstore : forall t e m, f (store t e m) = f m.
Hypothesis Hwarn : forall msg m, f (warn msg m) = f m.

Lemma keeps_ret {A} (a : A) : keeps f (ret a).
Proof. intros m. reflexivity. Qed.

Lemma keeps_raise {A} e : keeps f (@raise A e).
Proof. intros m. reflexivity. Qed.

Lemma keeps_lift {A} (r : result A) : keeps f (lift r).
Proof. intros m. reflexivity. Qed.

Lemma keeps_bind {A B} (c : M A) (k : A -> M B) :
  keeps f c -> (forall a, keeps f (k a)) -> keeps f (bind c k).
Proof.
  intros Hc Hk m. rewrite snd_bind.
  destruct (fst (c m)); [ rewrite Hk | ]; apply Hc.
Qed.

Lemma keeps_get_token : keeps f get_token.
Proof. intros m. reflexivity. Qed.

Lemma keeps_get_expire_at : keeps f get_expire_at.
Proof. intros m. reflexivity. Qed.

Lemma keeps_get_user_id : keeps f get_user_id.
Proof. intros m. unfold get_user_id. destruct (user_id m); reflexivity. Qed.

Lemma keeps_set_token t : keeps f (set_token t).
Proof. intros m. exact (Hstore t (expire_at m) m). Qed.

Lemma keeps_set_expire_at e : keeps f (set_expire_at e).
Proof. intros m. exact (Hstore (token m) e m). Qed.

Lemma keeps_datetime_now : keeps f datetime_now.
Proof. intros m. exact (Htick m). Qed.

Lemma keeps_uuid4_hex : keeps f uuid4_hex.
Proof. intros m. exact (Hdraw m). Qed.

Lemma keeps_logger_warning msg : keeps f (logger_warning msg).
Proof. intros m. exact (Hwarn msg m). Qed.

Lemma keeps_post env url tok kwargs : keeps f (_post env url tok kwargs).
Proof. intros m. rewrite _post_run. apply Hpush. Qed.

Ltac keeps_step :=
  match goal with
  | |- keeps _ (bind _ _) => apply keeps_bind; [ | intros ]
  | |- keeps _ (if ?b then _ else _) => destruct b
  | |- keeps _ (match ?x with _ => _ end) => destruct x
  | |- keeps _ _ =>
      first [ apply keeps_ret | apply keeps_raise | apply keeps_lift
            | apply keeps_get_token | apply keeps_get_expire_at
            | apply keeps_get_user_id | apply keeps_set_token
            | apply keeps_set_expire_at | apply keeps_datetime_now
            | apply keeps_uuid4_hex | apply keeps_post ]
  end.

Lemma keeps_descriptor_init : keeps f TenantToken.__init__.
Proof. unfold TenantToken.__init__. repeat keeps_step. Qed.

Lemma keeps_request_token env : keeps f (TenantToken.request_token env).
Proof. unfold TenantToken.request_token. repeat keeps_step. Qed.

Lemma keeps_get env : keeps f (TenantToken.__get__ env).
Proof.
  unfold TenantToken.__get__, TenantToken.stale.
  repeat first [ apply keeps_request_token | keeps_step ].
Qed.

Lemma keeps_get_open_id env tok : keeps f (get_open_id env tok).
Proof. unfold get_open_id. repeat keeps_step. Qed.

Lemma keeps_send_message env msg_type content :
  keeps f (FeiShuBot._send_message env msg_type content).
Proof.
  unfold FeiShuBot._send_message. repeat first [ apply keeps_get | keeps_step ].
Qed.

Lemma keeps_encoder form_fields : keeps f (MultipartEncoder form_fields).
Proof. unfold MultipartEncoder. repeat keeps_step. Qed.

Lemma keeps_post_file env file_type file filename :
  keeps f (FeiShuBot._post_file env file_type file filename).
Proof.
  unfold FeiShuBot._post_file.
  repeat first [ apply keeps_get | apply keeps_encoder | keeps_step ].
Qed.

Ltac keeps_method :=
  repeat first [ apply keeps_send_message | apply keeps_post_file
               | apply keeps_logger_warning | apply keeps_get | keeps_step ].

Lemma keeps_send_media env media cover :
  keeps f (FeiShuBot.send_media env media cover).
Proof. unfold FeiShuBot.send_media. keeps_method. Qed.

Lemma keeps_call env name args c :
  name <> "__init__" -> call_run env name args c -> keeps f c.
Proof.
  intros Hname Hc.
  destruct Hc; try contradiction;
    unfold FeiShuBot.wrap, FeiShuBot.send_text, FeiShuBot.send_image,
      FeiShuBot.send_file, FeiShuBot.send_audio, FeiShuBot.send_card;
    first [ apply keeps_send_media | keeps_method ].
Qed.

Lemma keeps_invoke env name args :
  In name members -> typed_call name args = true ->
  keeps f (FeiShuBot.invoke env name args).
Proof.
  intros Hin Hty m.
  destruct (invoke_typed env name args (or_intror Hin) Hty) as (c & Hc & Heq).
  rewrite Heq. apply (keeps_call env name args c); [ | exact Hc ].
  apply member_not_init, Hin.
Qed.
End Keeps.

(** X1: whatever member of the class is accessed or called on the bot,
    with whatever arguments of the types its signature names and whatever
    the outcome, the recipient stays what construction made it.  (The
    constructor, called again, resolves and sets it again.) *)
Theorem X1_recipient_fixed env name args m
  (Hmember : In name members)
  (Htyped : typed_call name args = true) :
  user_id (snd (FeiShuBot.invoke env name args m)) = user_id m.
Proof. apply (keeps_invoke user_id); trivial. Qed.

Lemma keeps_warnings_init env : keeps warnings (FeiShuBot.__init__ env).
Proof.
  unfold FeiShuBot.__init__. destruct (negb (ENABLE env)).
  - apply keeps_ret.
  - apply keeps_bind; [ | intros uid m; reflexivity ].
    destruct (present (FEISHU_OPEN_ID env)); [ apply keeps_ret | ].
    apply keeps_bind; [ apply keeps_get | intros; apply keeps_get_open_id ];
      reflexivity.
Qed.

(** X10: importing the module logs the unavailability warning exactly
    when the gate is off, and nothing else; with the gate off the import
    succeeds, sends nothing and sets no recipient. *)
Theorem X10_import_warning env m :
  let out := module_import env m in
  warnings (snd out)
  = (warnings m ++ (if ENABLE env then [] else [unavailable_message env]))%list
  /\ (ENABLE env = false ->
      fst out = Ok tt /\ sent (snd out) = sent m /\ user_id (snd out) = user_id m).
Proof.
  intros out. subst out. unfold module_import.
  fold (unavailable_message env).
  assert (Hrest : keeps warnings
            (_ <- TenantToken.__init__ ;; FeiShuBot.__init__ env)).
  { apply keeps_bind; [ apply keeps_descriptor_init; reflexivity | ].
    intros _. apply keeps_warnings_init. }
  destruct (ENABLE env) eqn:Hon; cbn [negb].
  - split; [ | discriminate ].
    rewrite snd_bind. cbn [ret fst snd]. rewrite Hrest.
    symmetry. apply List.app_nil_r.
  - split.
    + rewrite snd_bind. cbn [logger_warning fst snd]. rewrite Hrest. reflexivity.
    + intros _. unfold FeiShuBot.__init__. rewrite Hon. repeat split.
Qed.

(** What [__get__] returns is what the cache holds afterwards. *)
Lemma get_returns_cached env m t m' :
  TenantToken.__get__ env m = (Ok t, m') -> token m' = t.
Proof.
  rewrite get_unfold.
  destruct (truthy (token m)); [ destruct (expire_at m <? clock m (ticks m))%Z | ].
  - destruct (TenantToken.request_token env (tick m)) as [[[] | e] m1];
      intros H; inversion H; reflexivity.
  - intros H; inversion H; reflexivity.
  - destruct (TenantToken.request_token env m) as [[[] | e] m1];
      intros H; inversion H; reflexivity.
Qed.

(** X2: when the construction of an enabled bot succeeds the recipient
    is set: to the configured open_id, with nothing sent, when there is
    one; otherwise after exactly one lookup, made with the cached
    token. *)
Theorem X2_construction_sets_recipient env m m'
  (Hon : ENABLE env = true)
  (Hrun : FeiShuBot.__init__ env m = (Ok tt, m')) :
  exists uid,
    user_id m' = Some uid
    /\ (present (FEISHU_OPEN_ID env) = true ->
        uid = getenv_value (FEISHU_OPEN_ID env) /\ sent m' = sent m)
    /\ (present (FEISHU_OPEN_ID env) = false ->
        lookups m' = (lookups m ++ [lookup_request env (token m')])%list).
Proof.
  unfold FeiShuBot.__init__ in Hrun. rewrite Hon in Hrun. cbn [negb] in Hrun.
  destruct (present (FEISHU_OPEN_ID env)) eqn:Ho.
  - unfold bind, ret, set_user_id in Hrun. inversion Hrun; subst; clear Hrun.
    eexists. split; [ reflexivity | ]. split; [ | discriminate ].
    intros _. split; reflexivity.
  - pose proof (enabled_without_open_id env Hon Ho) as Hconf.
    unfold bind at 1 in Hrun. unfold bind at 1 in Hrun.
    pose proof (quiet_get env m) as Hq.
    destruct (TenantToken.__get__ env m) as [[t | e] m1] eqn:Hget;
      [ | discriminate ].
    apply get_returns_cached in Hget. simpl in Hq.
    rewrite get_open_id_run in Hrun by exact Hconf.
    destruct (match post_outcome env (hd_error (replies m1)) with
              | Ok resp => resolve env resp
              | Raise e => Raise e
              end) as [uid | e]; [ | discriminate ].
    unfold set_user_id in Hrun. inversion Hrun; subst; clear Hrun.
    exists uid. split; [ reflexivity | ]. split; [ discriminate | ].
    intros _.
    change (lookups (push (lookup_request env (token m1)) m1)
            = (lookups m ++ [lookup_request env (token m1)])%list).
    rewrite lookups_push_lookup, Hq. reflexivity.
Qed.

Lemma getitem_benign x key e : getitem x key = Raise e -> benign e.
Proof.
  unfold getitem. destruct x; try (intros H; inversion H; discriminate).
  destruct (dict_get key d); intros H; inversion H. discriminate.
Qed.

Lemma post_outcome_benign env answer e :
  post_outcome env answer = Raise e -> benign e.
Proof.
  unfold post_outcome. destruct answer as [resp | ];
    [ | intros H; inversion H; discriminate ].
  destruct (getitem resp "code") as [code | e0] eqn:Hc;
    [ | intros H; inversion H; subst; eapply getitem_benign; eauto ].
  destruct (truthy code); [ | discriminate ].
  destruct (getitem resp "msg") as [msg | e0] eqn:Hm;
    intros H; inversion H; subst.
  - unfold benign, unconfigured_message. simpl. discriminate.
  - eapply getitem_benign; eauto.
Qed.

Lemma first_user_id_benign users e :
  first_user_id users = Raise e -> benign e.
Proof.
  induction users as [| u users IH]; simpl; [ discriminate | ].
  destruct (contains "user_id" u) as [[] | e0] eqn:Hc.
  - destruct (getitem u "user_id") eqn:Hg; intros H; inversion H; subst.
    eapply getitem_benign; eauto.
  - exact IH.
  - intros H; inversion H; subst.
    destruct u; simpl in Hc; inversion Hc; discriminate.
Qed.

Lemma resolve_benign env resp e : resolve env resp = Raise e -> benign e.
Proof.
  unfold resolve.
  destruct (getitem resp "data") as [data | ] eqn:H1;
    [ | intros H; inversion H; subst; eapply getitem_benign; eauto ].
  destruct (getitem data "user_list") as [ul | ] eqn:H2;
    [ | intros H; inversion H; subst; eapply getitem_benign; eauto ].
  destruct (iterate ul) as [users | ] eqn:H3;
    [ | intros H; inversion H; subst; destruct ul; inversion H3; discriminate ].
  destruct (first_user_id users) as [[v | ] | ] eqn:H4; intros H; inversion H; subst.
  - unfold benign, unconfigured_message. simpl. discriminate.
  - eapply first_user_id_benign; eauto.
Qed.

Lemma timedelta_benign x e : timedelta_seconds x = Raise e -> benign e.
Proof.
  unfold timedelta_seconds.
  destruct x; try (intros H; inversion H; discriminate);
    match goal with
    | |- context [timedelta_in_range ?n] => destruct (timedelta_in_range n)
    end; intros H; inversion H; discriminate.
Qed.

Lemma datetime_add_benign delta t e : datetime_add delta t = Raise e -> benign e.
Proof.
  unfold datetime_add. destruct (datetime_in_range (delta + t));
    intros H; inversion H; discriminate.
Qed.

Lemma request_token_benign env m e :
  fst (TenantToken.request_token env m) = Raise e -> benign e.
Proof.
  rewrite request_token_run. cbv zeta.
  destruct (post_outcome env (hd_error (replies m))) as [resp | e0] eqn:Hp;
    [ | simpl; intros H; inversion H; subst; eapply post_outcome_benign; eauto ].
  destruct (getitem resp "tenant_access_token") eqn:H1; simpl;
    [ | intros H; inversion H; subst; eapply getitem_benign; eauto ].
  destruct (getitem resp "expire") as [x | ] eqn:H2; simpl;
    [ | intros H; inversion H; subst; eapply getitem_benign; eauto ].
  destruct (timedelta_seconds x) as [delta | ] eqn:H3; simpl;
    [ | intros H; inversion H; subst; eapply timedelta_benign; eauto ].
  destruct (datetime_add delta (clock m (S (ticks m)))) eqn:H4; simpl;
    [ discriminate | ].
  intros H; inversion H; subst. eapply datetime_add_benign; eauto.
Qed.

Lemma get_benign env m e :
  fst (TenantToken.__get__ env m) = Raise e -> benign e.
Proof.
  rewrite get_unfold.
  destruct (truthy (token m)); [ destruct (expire_at m <? clock m (ticks m))%Z | ].
  - pose proof (request_token_benign env (tick m)) as H.
    destruct (TenantToken.request_token env (tick m)) as [[[] | e0] m1];
      simpl in *; [ discriminate | ];
      intros Heq; inversion Heq; subst; apply H; reflexivity.
  - discriminate.
  - pose proof (request_token_benign env m) as H.
    destruct (TenantToken.request_token env m) as [[[] | e0] m1];
      simpl in *; [ discriminate | ];
      intros Heq; inversion Heq; subst; apply H; reflexivity.
Qed.

(** X3: constructing the bot never raises the configuration error of
    [get_open_id]: the gate lets the constructor reach the lookup only
    with a phone or an email. *)
Theorem X3_construction_never_unconfigured env m :
  fst (FeiShuBot.__init__ env m) <> Raise (ValueError unconfigured_message).
Proof.
  unfold FeiShuBot.__init__.
  destruct (ENABLE env) eqn:Hon; cbn [negb]; [ | discriminate ].
  destruct (present (FEISHU_OPEN_ID env)) eqn:Ho; [ discriminate | ].
  pose proof (enabled_without_open_id env Hon Ho) as Hconf.
  unfold bind at 1. unfold bind at 1.
  pose proof (get_benign env m) as Hg.
  destruct (TenantToken.__get__ env m) as [[t | e] m1]; simpl in Hg.
  - rewrite get_open_id_run by exact Hconf.
    destruct (post_outcome env (hd_error (replies m1))) as [resp | e] eqn:Hp.
    + destruct (resolve env resp) as [uid | e] eqn:Hr; [ discriminate | ].
      simpl. intros H. inversion H. subst.
      eapply resolve_benign; eauto.
    + simpl. intros H. inversion H. subst.
      eapply post_outcome_benign; eauto.
  - simpl. intros H. inversion H. subst. apply (Hg _ eq_refl). reflexivity.
Qed.

(** ** Operations under a fresh token *)

Lemma orderly_still {A} env tok (c : M A) :
  (forall m, token (snd (c m)) = token m /\ expire_at (snd (c m)) = expire_at m
             /\ clock (snd (c m)) = clock m /\ sent (snd (c m)) = sent m) ->
  orderly env tok c.
Proof.
  intros H m _ Ht. destruct (H m) as (H1 & H2 & H3 & H4).
  rewrite H1, H2, H3, H4. repeat split; trivial.
  exists []. split; [ symmetry; apply List.app_nil_r | constructor ].
Qed.

Lemma orderly_ret {A} env tok (a : A) : orderly env tok (ret a).
Proof. apply orderly_still. intros m. repeat split. Qed.

Lemma orderly_raise {A} env tok e : orderly env tok (@raise A e).
Proof. apply orderly_still. intros m. repeat split. Qed.

Lemma orderly_lift {A} env tok (r : result A) : orderly env tok (lift r).
Proof. apply orderly_still. intros m. repeat split. Qed.

Lemma orderly_get_user_id env tok : orderly env tok get_user_id.
Proof.
  apply orderly_still. intros m. unfold get_user_id.
  destruct (user_id m); repeat split.
Qed.

Lemma orderly_uuid4_hex env tok : orderly env tok uuid4_hex.
Proof. apply orderly_still. intros m. repeat split. Qed.

Lemma orderly_logger_warning env tok msg : orderly env tok (logger_warning msg).
Proof. apply orderly_still. intros m. repeat split. Qed.

Lemma orderly_bind {A B} env tok (c : M A) (k : A -> M B) :
  orderly env tok c -> (forall a, orderly env tok (k a)) ->
  orderly env tok (bind c k).
Proof.
  intros Hc Hk m Hf Ht. rewrite snd_bind.
  destruct (Hc m Hf Ht) as (H1 & H2 & H3 & new1 & Hs1 & Ha1).
  destruct (fst (c m)) as [a | e].
  - assert (Hf1 : fresh (snd (c m))).
    { destruct Hf as [Htr Hcl]. split.
      - rewrite H1, <- Ht. exact Htr.
      - intros i. rewrite H2, H3. apply Hcl. }
    destruct (Hk a (snd (c m)) Hf1 H1) as (K1 & K2 & K3 & new2 & Hs2 & Ha2).
    rewrite K1, K2, K3, H2, H3. repeat split; trivial.
    exists (new1 ++ new2)%list. split.
    + rewrite Hs2, Hs1. symmetry. apply List.app_assoc.
    + apply Forall_app. split; assumption.
  - repeat split; trivial. exists new1. split; assumption.
Qed.

(** Under a fresh token [self.token] is the cached token, at the cost
    of one reading of the clock. *)
Lemma orderly_with_token {B} env tok (k : json -> M B) :
  orderly env tok (k tok) -> orderly env tok (bind (TenantToken.__get__ env) k).
Proof.
  intros Hk m Hf Ht. unfold bind. rewrite (get_fresh env m Hf), Ht.
  apply (Hk (tick m)); [ exact Hf | exact Ht ].
Qed.

Lemma orderly_post env tok url kwargs :
  (url =? TENANT_TOKEN_API)%string = false ->
  orderly env tok (_post env url tok kwargs).
Proof.
  intros Hurl m [Htr _] Ht. rewrite _post_run. cbn [snd].
  repeat split; trivial.
  exists [post_request env url tok kwargs]. split; [ reflexivity | ].
  constructor; [ | constructor ]. split.
  - simpl. intros H. rewrite H in Hurl. discriminate.
  - unfold headers_of, post_request; simpl. rewrite <- Ht, Htr.
    apply dict_get_set_same.
Qed.

Ltac orderly_step :=
  match goal with
  | |- orderly _ _ (bind (TenantToken.__get__ _) _) => apply orderly_with_token
  | |- orderly _ _ (bind _ _) => apply orderly_bind; [ | intros ]
  | |- orderly _ _ (_post _ _ _ _) => apply orderly_post; reflexivity
  | |- orderly _ _ (if ?b then _ else _) => destruct b
  | |- orderly _ _ (match ?x with _ => _ end) => destruct x
  | |- orderly _ _ _ =>
      first [ apply orderly_ret | apply orderly_raise | apply orderly_lift
            | apply orderly_get_user_id | apply orderly_uuid4_hex
            | apply orderly_logger_warning ]
  end.

Lemma orderly_send_message env tok msg_type content :
  orderly env tok (FeiShuBot._send_message env msg_type content).
Proof. unfold FeiShuBot._send_message. repeat orderly_step. Qed.

Lemma orderly_encoder env tok form_fields :
  orderly env tok (MultipartEncoder form_fields).
Proof. unfold MultipartEncoder. repeat orderly_step. Qed.

Lemma orderly_post_file env tok file_type file filename :
  orderly env tok (FeiShuBot._post_file env file_type file filename).
Proof.
  unfold FeiShuBot._post_file.
  destruct (file_type =? "image")%string;
    repeat first [ apply orderly_encoder | orderly_step ].
Qed.

Lemma orderly_set_user_id env tok v : orderly env tok (set_user_id v).
Proof. apply orderly_still. intros m. repeat split. Qed.

Lemma orderly_get_open_id env tok : orderly env tok (get_open_id env tok).
Proof. unfold get_open_id. repeat orderly_step. Qed.

Lemma orderly_init env tok : orderly env tok (FeiShuBot.__init__ env).
Proof.
  unfold FeiShuBot.__init__.
  repeat first [ apply orderly_set_user_id | apply orderly_get_open_id
               | orderly_step ].
Qed.

Ltac orderly_method :=
  repeat first [ apply orderly_send_message | apply orderly_post_file
               | apply orderly_init | orderly_step ].

Lemma orderly_send_media env tok media cover :
  orderly env tok (FeiShuBot.send_media env media cover).
Proof. unfold FeiShuBot.send_media. orderly_method. Qed.

Lemma orderly_call env tok name args c :
  call_run env name args c -> orderly env tok c.
Proof.
  intros Hc.
  destruct Hc;
    unfold FeiShuBot.wrap, FeiShuBot.send_text, FeiShuBot.send_image,
      FeiShuBot.send_file, FeiShuBot.send_audio, FeiShuBot.send_card;
    first [ apply orderly_send_media | orderly_method ].
Qed.

Lemma orderly_invoke env tok name args :
  In name ("__init__" :: members) -> typed_call name args = true ->
  orderly env tok (FeiShuBot.invoke env name args).
Proof.
  intros Hin Hty m.
  destruct (invoke_typed env name args Hin Hty) as (c & Hc & Heq).
  rewrite Heq. apply (orderly_call env tok name args c Hc).
Qed.

Lemma calls_to_authorized env tok new :
  Forall (authorized env tok) new -> calls_to TENANT_TOKEN_API new = [].
Proof.
  induction 1 as [| r new [Hurl _] _ IH]; [ reflexivity | ].
  simpl. destruct (String.eqb_spec (req_url r) TENANT_TOKEN_API);
    [ contradiction | exact IH ].
Qed.

(** X11: with a fresh token in the cache, whatever member of the
    class is accessed or called on the bot, the constructor included,
    with arguments of the types its signature names, never authenticates
    again: the token and its expiry stay, no request goes to the
    authentication endpoint, and every request that is sent carries the
    cached token as its bearer token. *)
Theorem X11_fresh_token_is_reused env name args m
  (Hfresh : fresh m)
  (Hmember : In name ("__init__" :: members))
  (Htyped : typed_call name args = true) :
  let out := FeiShuBot.invoke env name args m in
  token (snd out) = token m
  /\ expire_at (snd out) = expire_at m
  /\ calls_to TENANT_TOKEN_API (sent (snd out))
     = calls_to TENANT_TOKEN_API (sent m)
  /\ exists new,
       sent (snd out) = (sent m ++ new)%list
       /\ Forall (fun r =>
                    dict_get "authorization" (headers_of r)
                    = Some ("Bearer " ++ py_str env (token m))) new.
Proof.
  intros out. subst out.
  destruct (orderly_invoke env (token m) name args Hmember Htyped m Hfresh
              eq_refl)
    as (H1 & H2 & _ & new & Hs & Ha).
  repeat split; trivial.
  - rewrite Hs, calls_to_app, (calls_to_authorized _ _ _ Ha).
    apply List.app_nil_r.
  - exists new. split; [ exact Hs | ].
    eapply Forall_impl; [ | exact Ha ]. intros r [_ H]. exact H.
Qed.

(** ** The request primitive, whatever the answer *)

(** X9: [_post] always sends exactly one request and consumes one
    answer.  It returns only a dict whose code is falsy, and that dict is
    the answer itself; an answering dict without code raises
    [KeyError code], and one with a truthy code and no msg raises
    [KeyError msg]. *)
Theorem X9_post_outcomes env url tok kwargs m :
  let out := _post env url tok kwargs m in
  length (sent (snd out)) = S (length (sent m))
  /\ replies (snd out) = tl (replies m)
  /\ (forall v, fst out = Ok v ->
        exists d code,
          v = JDict d /\ hd_error (replies m) = Some v
          /\ dict_get "code" d = Some code /\ truthy code = false)
  /\ (forall d rest,
        replies m = JDict d :: rest -> dict_get "code" d = None ->
        fst out = Raise (KeyError "code"))
  /\ (forall d rest code,
        replies m = JDict d :: rest -> dict_get "code" d = Some code ->
        truthy code = true -> dict_get "msg" d = None ->
        fst out = Raise (KeyError "msg")).
Proof.
  intros out. subst out. rewrite _post_run. cbn [fst snd].
  split; [ unfold push; simpl; rewrite List.length_app; simpl; lia | ].
  split; [ reflexivity | ]. split; [ | split ].
  - intros v. unfold post_outcome.
    destruct (replies m) as [| resp rest]; simpl; [ discriminate | ].
    destruct resp; simpl; try discriminate.
    destruct (dict_get "code" d) as [code | ] eqn:Hc; [ | discriminate ].
    destruct (truthy code) eqn:Ht.
    + destruct (dict_get "msg" d); discriminate.
    + intros H. inversion H. subst. eauto 6.
  - intros d rest Hr Hc. rewrite Hr. simpl. rewrite Hc. reflexivity.
  - intros d rest code Hr Hc Ht Hm. rewrite Hr. simpl. rewrite Hc, Ht, Hm.
    reflexivity.
Qed.

(** ** Authentication that fails *)

Lemma request_token_refused env m resp rest n text :
  replies m = resp :: rest ->
  getitem resp "code" = Ok (JNum n) -> n <> 0%Z ->
  getitem resp "msg" = Ok (JStr text) ->
  TenantToken.request_token env m =
  (Raise (ValueError ("Message failed: " ++ text)), push (auth_request env) m).
Proof.
  intros Hr Hc Hn Hm.
  unfold TenantToken.request_token. unfold bind at 1. rewrite _post_run.
  fold (auth_request env). rewrite Hr. simpl. rewrite Hc. simpl.
  destruct (Z.eqb_spec n 0); [ contradiction | ]. simpl. rewrite Hm.
  reflexivity.
Qed.

Lemma request_token_without_expire env m resp rest t e :
  replies m = resp :: rest ->
  getitem resp "code" = Ok (JNum 0) ->
  getitem resp "tenant_access_token" = Ok t ->
  getitem resp "expire" = Raise e ->
  TenantToken.request_token env m =
  (Raise e, store t (expire_at m) (push (auth_request env) m)).
Proof.
  intros Hr Hc Ht He.
  unfold TenantToken.request_token. unfold bind at 1. rewrite _post_run.
  fold (auth_request env). rewrite Hr. simpl. rewrite Hc. simpl.
  unfold set_token, set_expire_at, datetime_now. run.
  rewrite Ht. simpl. rewrite He. reflexivity.
Qed.

(** X7: a stale request whose authentication is refused (non-zero
    code) raises the request error and leaves the cached token and its
    expiry as they were.  When the answer has code 0 and a token but no
    expire, the request raises [KeyError expire] after the new token has
    already replaced the cached one, the old expiry staying. *)
Theorem X7_failed_refresh env m resp rest
  (Hstale : is_stale m = true)
  (Hanswer : replies m = resp :: rest) :
  let out := TenantToken.__get__ env m in
  (forall n text,
     getitem resp "code" = Ok (JNum n) -> n <> 0%Z ->
     getitem resp "msg" = Ok (JStr text) ->
     fst out = Raise (ValueError ("Message failed: " ++ text))
     /\ token (snd out) = token m
     /\ expire_at (snd out) = expire_at m)
  /\ (forall t,
        getitem resp "code" = Ok (JNum 0) ->
        getitem resp "tenant_access_token" = Ok t ->
        getitem resp "expire" = Raise (KeyError "expire") ->
        fst out = Raise (KeyError "expire")
        /\ token (snd out) = t
        /\ expire_at (snd out) = expire_at m).
Proof.
  intros out. subst out. rewrite (get_stale env m Hstale).
  assert (Hr : replies (if truthy (token m) then tick m else m) = resp :: rest)
    by (destruct (truthy (token m)); exact Hanswer).
  split.
  - intros n text Hc Hn Hm.
    rewrite (request_token_refused env _ resp rest n text Hr Hc Hn Hm).
    destruct (truthy (token m)); repeat split.
  - intros t Hc Ht He.
    rewrite (request_token_without_expire env _ resp rest t _ Hr Hc Ht He).
    destruct (truthy (token m)); repeat split.
Qed.

(** X8: after a refresh that stored a non-empty token with a TTL, both
    the TTL and the expiry it leads to being in the range Python gives
    them, a following request whose reading of the clock is no later than
    the reading taken at the refresh plus the TTL sends nothing and
    returns the same token. *)
Theorem X8_refresh_then_reuse env m resp rest t ttl
  (Hstale : is_stale m = true)
  (Hanswer : replies m = resp :: rest)
  (Hcode : getitem resp "code" = Ok (JNum 0))
  (Htoken : getitem resp "tenant_access_token" = Ok t)
  (Hnonempty : truthy t = true)
  (Httl : getitem resp "expire" = Ok (JNum ttl))
  (Hdelta : timedelta_in_range ttl = true) :
  let first := TenantToken.__get__ env m in
  let posted := if truthy (token m) then S (ticks m) else ticks m in
  let until := (clock m (S posted) + ttl * 1000000)%Z in
  datetime_in_range until = true ->
  fst first = Ok t
  /\ ((clock m (S (S posted)) <= until)%Z ->
      TenantToken.__get__ env (snd first) = (Ok t, tick (snd first))
      /\ sent (snd (TenantToken.__get__ env (snd first))) = sent (snd first)).
Proof.
  intros first posted until Hdate. subst first.
  rewrite (get_stale env m Hstale).
  set (m0 := if truthy (token m) then tick m else m).
  assert (Hr : replies m0 = resp :: rest)
    by (subst m0; destruct (truthy (token m)); exact Hanswer).
  assert (Hu : (ttl * 1000000 + clock m0 (S (ticks m0)))%Z = until).
  { subst until posted m0.
    destruct (truthy (token m)); cbn [tick clock ticks]; lia. }
  rewrite (request_token_ok env m0 resp rest t ttl Hr Hcode Htoken Httl Hdelta)
    by (rewrite Hu; exact Hdate).
  rewrite Hu. cbn [fst snd]. split; [ reflexivity | ]. intros Hin.
  assert (Hnext : TenantToken.__get__ env
                    (store t until (tick (push (auth_request env) m0)))
                  = (Ok t, tick (store t until
                                   (tick (push (auth_request env) m0))))).
  { rewrite get_unfold. cbn [store token expire_at clock ticks tick push].
    rewrite Hnonempty.
    replace (_ <? _)%Z with false; [ reflexivity | ].
    symmetry. apply Z.ltb_ge.
    subst posted m0.
    destruct (truthy (token m)); cbn [tick clock ticks] in *; exact Hin. }
  rewrite Hnext. split; reflexivity.
Qed.

(** ** Uploading, then sending *)

Lemma post_file_fresh env file_type file filename m :
  fresh m ->
  encodable file = true ->
  FeiShuBot._post_file env file_type file filename m =
  (match post_outcome env (hd_error (replies m)) with
   | Ok resp => getitem resp "data"
   | Raise e => Raise e
   end,
   let name :=
     if nonempty filename then filename
     else match file with
          | FStream (BufferedReader n _) => basename n
          | _ => "file"
          end in
   push (if (file_type =? "image")%string
         then upload_request env (token m) UPLOAD_IMAGE_API
                [("image_type", FieldText "message");
                 ("image", FieldFile name file)]
                (uuids m (draws m))
         else upload_request env (token m) UPLOAD_FILE_API
                [("file_type", FieldText file_type);
                 ("file", FieldFile name file);
                 ("filename", FieldText name)]
                (uuids m (draws m)))
        (draw (tick m))).
Proof.
  intros Hf Henc.
  rewrite (post_file_run env file_type file filename m (token m) (tick m)
             (get_fresh env m Hf)).
  rewrite Henc. reflexivity.
Qed.

Lemma upload_then_send_run env msg_type file_type file filename m uid r1 r2 rest h :
  fresh m ->
  encodable file = true ->
  user_id m = Some uid ->
  replies m = r1 :: r2 :: rest ->
  getitem r1 "code" = Ok (JNum 0) ->
  getitem r1 "data" = Ok h ->
  getitem r2 "code" = Ok (JNum 0) ->
  exists up,
    req_url up = upload_endpoint file_type
    /\ (handle <- FeiShuBot._post_file env file_type file filename ;;
        FeiShuBot._send_message env msg_type handle) m
       = (Ok r2,
          push (message_request env (token m) uid msg_type h)
            (tick (push up (draw (tick m))))).
Proof.
  intros Hf Henc Huid Hr Hc1 Hd Hc2. unfold bind at 1.
  rewrite (post_file_fresh env file_type file filename m Hf Henc).
  rewrite Hr. cbn [hd_error post_outcome]. rewrite Hc1.
  cbn [truthy Z.eqb negb]. rewrite Hd. cbv zeta.
  set (up := if (file_type =? "image")%string then _ else _).
  set (m1 := push up (draw (tick m))).
  assert (Hf1 : fresh m1) by exact Hf.
  rewrite (send_message_run env msg_type h m1 (token m1) (tick m1) uid
             (get_fresh env m1 Hf1) Huid).
  assert (Hr1 : replies (tick m1) = r2 :: rest).
  { change (tl (replies m) = r2 :: rest). rewrite Hr. reflexivity. }
  rewrite Hr1. cbn [hd_error post_outcome]. rewrite Hc2.
  cbn [truthy Z.eqb negb]. exists up. split; [ | reflexivity ].
  subst up. unfold upload_endpoint.
  destruct (file_type =? "image")%string; reflexivity.
Qed.

Lemma upload_then_send env msg_type file_type file filename m uid r1 r2 rest h :
  fresh m ->
  user_id m = Some uid ->
  replies m = r1 :: r2 :: rest ->
  getitem r1 "code" = Ok (JNum 0) ->
  getitem r1 "data" = Ok h ->
  getitem r2 "code" = Ok (JNum 0) ->
  encodable file = true ->
  let out := (handle <- FeiShuBot._post_file env file_type file filename ;;
              FeiShuBot._send_message env msg_type handle) m in
  fst out = Ok r2
  /\ exists up,
       sent (snd out)
       = (sent m ++ [up; message_request env (token m) uid msg_type h])%list
       /\ req_url up = upload_endpoint file_type.
Proof.
  intros Hf Huid Hr Hc1 Hd Hc2 Henc out. subst out.
  destruct (upload_then_send_run env msg_type file_type file filename m uid
              r1 r2 rest h Hf Henc Huid Hr Hc1 Hd Hc2) as (up & Hurl & Hrun).
  rewrite Hrun. split; [ reflexivity | ]. exists up. split; [ | exact Hurl ].
  unfold push; simpl. rewrite <- List.app_assoc. reflexivity.
Qed.


Lemma upload_refused_run env msg_type file_type file filename m r1 rest n text :
  fresh m ->
  encodable file = true ->
  replies m = r1 :: rest ->
  getitem r1 "code" = Ok (JNum n) -> n <> 0%Z ->
  getitem r1 "msg" = Ok (JStr text) ->
  exists up,
    req_url up = upload_endpoint file_type
    /\ (handle <- FeiShuBot._post_file env file_type file filename ;;
        FeiShuBot._send_message env msg_type handle) m
       = (Raise (ValueError ("Message failed: " ++ text)),
          push up (draw (tick m))).
Proof.
  intros Hf Henc Hr Hc Hn Hm. unfold bind at 1.
  rewrite (post_file_fresh env file_type file filename m Hf Henc).
  rewrite Hr. cbn [hd_error post_outcome]. rewrite Hc.
  cbn [truthy]. destruct (Z.eqb_spec n 0); [ contradiction | ].
  cbn [negb]. rewrite Hm. cbv zeta. cbn [py_str].
  set (up := if (file_type =? "image")%string then _ else _).
  exists up. split; [ | reflexivity ].
  subst up. unfold upload_endpoint.
  destruct (file_type =? "image")%string; reflexivity.
Qed.

Lemma upload_impossible env msg_type file_type b filename m :
  fresh m ->
  let out := (handle <- FeiShuBot._post_file env file_type
                          (FStream (ByteArray b)) filename ;;
              FeiShuBot._send_message env msg_type handle) m in
  fst out
  = Raise (AttributeError "'bytearray' object has no attribute 'encode'")
  /\ sent (snd out) = sent m.
Proof.
  intros Hf out. subst out.
  assert (Hrun : (handle <- FeiShuBot._post_file env file_type
                              (FStream (ByteArray b)) filename ;;
                  FeiShuBot._send_message env msg_type handle) m
                 = (Raise no_encode, draw (tick m))).
  { unfold bind at 1.
    rewrite (post_file_run env file_type (FStream (ByteArray b)) filename m
               (token m) (tick m) (get_fresh env m Hf)).
    reflexivity. }
  rewrite Hrun. split; reflexivity.
Qed.

Lemma upload_endpoint_not_message file_type :
  (upload_endpoint file_type =? MESSAGE_API)%string = false.
Proof. unfold upload_endpoint. destruct (file_type =? "image")%string; reflexivity. Qed.

Lemma upload_refused env msg_type file_type file filename m r1 rest n text :
  fresh m ->
  replies m = r1 :: rest ->
  getitem r1 "code" = Ok (JNum n) -> n <> 0%Z ->
  getitem r1 "msg" = Ok (JStr text) ->
  encodable file = true ->
  let out := (handle <- FeiShuBot._post_file env file_type file filename ;;
              FeiShuBot._send_message env msg_type handle) m in
  fst out = Raise (ValueError ("Message failed: " ++ text))
  /\ length (sent (snd out)) = S (length (sent m))
  /\ calls_to MESSAGE_API (sent (snd out)) = calls_to MESSAGE_API (sent m).
Proof.
  intros Hf Hr Hc Hn Hm Henc out. subst out.
  destruct (upload_refused_run env msg_type file_type file filename m r1 rest
              n text Hf Henc Hr Hc Hn Hm) as (up & Hurl & Hrun).
  rewrite Hrun. split; [ reflexivity | ].
  unfold push; cbn [snd sent draw tick]. rewrite List.length_app, calls_to_app.
  split; [ simpl; lia | ].
  simpl. rewrite Hurl, upload_endpoint_not_message. apply List.app_nil_r.
Qed.


(** ** Media without a cover *)

(** X4: with the image-processing capability and no cover supplied,
    [send_media] refuses a video that is not an opened file with the
    "Cover must be set" error, and raises the capability's error when the
    first frame cannot be read, both on an untouched machine; when the
    frame is read, it proceeds exactly as if the JPEG of that frame had
    been supplied as the cover. *)
Theorem X4_media_without_cover env grab media cover m
  (Hcv : cv2 env = Some grab)
  (Hcover : stream_truthy cover = false) :
  ((forall n content, media <> BufferedReader n content) ->
   FeiShuBot.send_media env media cover m
   = (Raise (ValueError "Cover must be set when media is not an opened file"), m))
  /\ (forall n content,
        media = BufferedReader n content -> grab n = None ->
        FeiShuBot.send_media env media cover m = (Raise Cv2Error, m))
  /\ (forall n content jpg,
        media = BufferedReader n content -> grab n = Some jpg ->
        FeiShuBot.send_media env media cover m
        = FeiShuBot.send_media env media (Bytes jpg) m).
Proof.
  unfold FeiShuBot.send_media. rewrite Hcv, Hcover. cbn [negb].
  split; [ | split ].
  - intros Hnot. destruct media as [n c | b | b];
      [ exfalso; apply (Hnot n c); reflexivity | reflexivity | reflexivity ].
  - intros n content -> Hgrab. rewrite Hgrab. reflexivity.
  - intros n content jpg -> Hgrab. rewrite Hgrab.
    destruct jpg as [| b jpg]; reflexivity.
Qed.

(** ** What a message carries *)


(** ** Merging the handles *)

Lemma dict_get_set_distinct {V} k k' (v : V) d :
  k <> k' -> dict_get k (dict_set k' v d) = dict_get k d.
Proof.
  intros Hne. induction d as [| [k0 v0] d IH]; simpl.
  - destruct (String.eqb_spec k k'); [ contradiction | reflexivity ].
  - destruct (String.eqb_spec k' k0) as [-> | Hk]; simpl.
    + destruct (String.eqb_spec k k0); [ contradiction | reflexivity ].
    + destruct (String.eqb_spec k k0); auto.
Qed.

Lemma dict_get_absent {V} k (d : list (string * V)) :
  ~ In k (map fst d) -> dict_get k d = None.
Proof.
  induction d as [| [k' v] d IH]; simpl; [ reflexivity | ].
  intros H. destruct (String.eqb_spec k k') as [-> | _]; [ tauto | ].
  apply IH. tauto.
Qed.

Lemma dict_get_merge {V} k (b : list (string * V)) : forall a,
  NoDup (map fst b) ->
  dict_get k (dict_merge a b)
  = match dict_get k b with Some v => Some v | None => dict_get k a end.
Proof.
  unfold dict_merge. induction b as [| [k' v'] b IH]; intros a Hb; simpl.
  - reflexivity.
  - inversion Hb as [| ? ? Hnotin Hb']; subst. rewrite IH by exact Hb'.
    destruct (String.eqb_spec k k') as [-> | Hne].
    + rewrite (dict_get_absent k' b Hnotin). apply dict_get_set_same.
    + rewrite dict_get_set_distinct by exact Hne. reflexivity.
Qed.

Lemma keys_dict_set {V} k (v : V) d :
  map fst (dict_set k v d)
  = if dict_has k d then map fst d else (map fst d ++ [k])%list.
Proof.
  unfold dict_has. induction d as [| [k' v'] d IH]; simpl; [ reflexivity | ].
  destruct (k =? k')%string; simpl; [ reflexivity | ].
  rewrite IH. destruct (dict_get k d); reflexivity.
Qed.

Lemma dict_set_distinct {V} k (v : V) d :
  NoDup (map fst d) -> NoDup (map fst (dict_set k v d)).
Proof.
  intros Hd. rewrite keys_dict_set. unfold dict_has.
  destruct (dict_get k d) eqn:Hg; [ exact Hd | ].
  apply NoDup_app; [ exact Hd | repeat constructor; intros [] | ].
  intros x Hx [Hk | []]. subst x.
  clear Hd. induction d as [| [k' v'] d IH]; simpl in *; [ contradiction | ].
  destruct (String.eqb_spec k k'); [ discriminate | ].
  destruct Hx as [Hx | Hx]; [ congruence | ]. apply IH; assumption.
Qed.

Lemma dict_merge_distinct {V} (b a : list (string * V)) :
  NoDup (map fst a) -> NoDup (map fst (dict_merge a b)).
Proof.
  unfold dict_merge. revert a. induction b as [| [k v] b IH]; intros a Ha; simpl.
  - exact Ha.
  - apply IH. apply dict_set_distinct. exact Ha.
Qed.

(** X13: the content [send_media] makes of the two handles is their
    union with the cover's side winning: a key of the cover's handle is
    bound to the cover's value, any other key to what the video's handle
    binds it to, and no key comes twice. *)
Theorem X13_merged_handles (video cover : list (string * json))
  (Hvideo : NoDup (map fst video))
  (Hcover : NoDup (map fst cover)) :
  exists content,
    py_or (JDict video) (JDict cover) = Ok (JDict content)
    /\ NoDup (map fst content)
    /\ forall k,
         dict_get k content
         = match dict_get k cover with
           | Some v => Some v
           | None => dict_get k video
           end.
Proof.
  exists (dict_merge video cover). split; [ reflexivity | ]. split.
  - apply dict_merge_distinct, Hvideo.
  - intros k. apply dict_get_merge, Hcover.
Qed.

(** ** The lookup request *)

(** X14: with a phone or an email configured, [get_open_id] sends
    exactly one request, to the lookup endpoint with
    user_id_type=open_id, whose body lists the phone under mobiles when a
    phone is set and the email under emails when an email is set, both
    when both are. *)
Theorem X14_lookup_request env tok m
  (Hconf : present (FEISHU_PHONE env) = true \/ present (FEISHU_EMAIL env) = true) :
  let out := get_open_id env tok m in
  exists req body,
    sent (snd out) = (sent m ++ [req])%list
    /\ req_url req = USER_ID_API
    /\ kw_params (req_kwargs req) = Some [("user_id_type", "open_id")]
    /\ kw_json (req_kwargs req) = Some (JDict body)
    /\ dict_get "mobiles" body
       = (if present (FEISHU_PHONE env)
          then Some (JList [getenv_value (FEISHU_PHONE env)]) else None)
    /\ dict_get "emails" body
       = (if present (FEISHU_EMAIL env)
          then Some (JList [getenv_value (FEISHU_EMAIL env)]) else None).
Proof.
  intros out. subst out. rewrite (get_open_id_run env tok m Hconf). cbn [snd].
  exists (lookup_request env tok), (lookup_body env).
  repeat (split; [ reflexivity | ]).
  unfold lookup_body.
  destruct (present (FEISHU_PHONE env)), (present (FEISHU_EMAIL env));
    split; reflexivity.
Qed.

(** ** The first request *)

(** X15: the first request after the descriptor is created always
    authenticates, whatever the clock reads: it sends exactly one
    request, to the authentication endpoint, with the JSON content type,
    no authorization header, and app_id and app_secret as its body. *)
Theorem X15_first_request_authenticates env m :
  let out := TenantToken.__get__ env (snd (TenantToken.__init__ m)) in
  exists req,
    sent (snd out) = (sent m ++ [req])%list
    /\ req_url req = TENANT_TOKEN_API
    /\ headers_of req = [("Content-Type", "application/json")]
    /\ kw_json (req_kwargs req)
       = Some (JDict [("app_id", getenv_value (FEISHU_APP_ID env));
                      ("app_secret", getenv_value (FEISHU_APP_SECRET env))]).
Proof.
  intros out. subst out. rewrite get_sent.
  exists (auth_request env). repeat split.
Qed.

(* ================================================================= *)
(** * Runs on concrete machines *)

Example import_resolves_recipient :
  let out := module_import env_phone
               (boot [envelope_token; envelope_users] (stopped 1000000) one_boundary) in
  fst out = Ok tt
  /\ user_id (snd out) = Some (JStr "ou_7")
  /\ token (snd out) = JStr "T"
  /\ expire_at (snd out) = 7201000000%Z
  /\ map req_url (sent (snd out)) = [TENANT_TOKEN_API; USER_ID_API]
  /\ warnings (snd out) = [].
Proof. vm_compute. repeat split. Qed.

Example import_disabled_warns :
  let out := module_import env_off (boot [] (stopped 0) one_boundary) in
  fst out = Ok tt
  /\ user_id (snd out) = None
  /\ sent (snd out) = []
  /\ length (warnings (snd out)) = 1.
Proof. vm_compute. repeat split. Qed.

Example token_within_ttl_is_reused :
  let m := boot [envelope_token] (stopped 0) one_boundary in
  let first := TenantToken.__get__ env_direct (snd (TenantToken.__init__ m)) in
  let second := TenantToken.__get__ env_direct (snd first) in
  fst first = Ok (JStr "T")
  /\ fst second = Ok (JStr "T")
  /\ length (sent (snd first)) = 1
  /\ length (sent (snd second)) = 1.
Proof. vm_compute. repeat split. Qed.

Example text_hello_on_the_wire :
  let out := FeiShuBot.send_text env_direct "hello" (cached 0 [envelope_ok]) in
  fst out = Ok envelope_ok
  /\ map (fun r => kw_json (req_kwargs r)) (sent (snd out))
     = [Some (JDict [("receive_id", JStr "ou_42");
                     ("msg_type", JStr "text");
                     ("content", JStr (Json.dumps (JDict [("text", JStr "hello")])))])]
  /\ Json.loads (Json.dumps (JDict [("text", JStr "hello")]))
     = Some (JDict [("text", JStr "hello")]).
Proof. vm_compute. repeat split. Qed.

Example image_upload_then_send :
  let out := FeiShuBot.send_image env_direct (Bytes [Byte.x89])
               (cached 0 [envelope_image; envelope_ok]) in
  fst out = Ok envelope_ok
  /\ map req_url (sent (snd out)) = [UPLOAD_IMAGE_API; MESSAGE_API].
Proof. vm_compute. repeat split. Qed.

Example basename_of_path : basename "/tmp/clips/test.mp4" = "test.mp4".
Proof. reflexivity. Qed.

Example bytearray_is_not_uploaded :
  let out := FeiShuBot.send_image env_direct (ByteArray [Byte.x89])
               (cached 0 [envelope_image; envelope_ok]) in
  fst out = Raise (AttributeError "'bytearray' object has no attribute 'encode'")
  /\ sent (snd out) = [].
Proof. vm_compute. repeat split. Qed.

Example constructor_called_again :
  let out := FeiShuBot.invoke env_phone "__init__" []
               (cached 0 [envelope_users]) in
  fst out = Ok JNull
  /\ user_id (snd out) = Some (JStr "ou_7")
  /\ map req_url (sent (snd out)) = [USER_ID_API].
Proof. vm_compute. repeat split. Qed.

Example ttl_beyond_timedelta :
  let out := TenantToken.__get__ env_direct (uncached 0 [envelope_forever]) in
  fst out = Raise OverflowError
  /\ token (snd out) = JStr "T2"
  /\ expire_at (snd out) = 0%Z.
Proof. vm_compute. repeat split. Qed.

(** ** Instances of the theorems *)

(** With an empty app id the bot is off: nothing is resolved, and
    [send_text] only logs. *)
Lemma C1_disabled_noop_witness :
  ENABLE env_off = false
  /\ FeiShuBot.__init__ env_off (cached 0 [envelope_ok])
     = (Ok tt, cached 0 [envelope_ok])
  /\ sent (snd (FeiShuBot.invoke env_off "send_text" [AVal (JStr "hi")]
                  (cached 0 [envelope_ok]))) = [].
Proof.
  split; [ reflexivity | ].
  destruct (C1_disabled_noop env_off eq_refl) as [Hinit Hcall].
  split; [ apply Hinit | ].
  destruct (Hcall "send_text" [AVal (JStr "hi")] (cached 0 [envelope_ok]))
    as (_ & Hsent & _).
  - simpl. auto.
  - exact Hsent.
Defined.

(** A token cached until 7200 s is returned at 7200 s sharp without a
    call, and replaced one microsecond later; a TTL of 10^15 seconds is
    more than a [timedelta] holds. *)
Lemma C2_token_cache_witness :
  sent (snd (TenantToken.__get__ env_direct (cached 7200000000 [envelope_token])))
  = []
  /\ expire_at (snd (TenantToken.__get__ env_direct
                       (cached 7200000001 [envelope_token])))
     = (7200000001 + 7200 * 1000000)%Z
  /\ (let out := TenantToken.__get__ env_direct
                  (cached 7200000001 [envelope_forever]) in
      fst out = Raise OverflowError
      /\ token (snd out) = JStr "T2"
      /\ expire_at (snd out) = 7200000000%Z).
Proof.
  split; [ | split ].
  - destruct (C2_token_cache env_direct (cached 7200000000 [envelope_token]))
      as (_ & Hhit & _).
    destruct Hhit as (_ & Hsent & _);
      [ reflexivity | apply Z.leb_le; reflexivity | exact Hsent ].
  - destruct (C2_token_cache env_direct (cached 7200000001 [envelope_token]))
      as (Hmiss & _).
    destruct Hmiss as (_ & _ & Hstore);
      [ right; apply Z.ltb_lt; reflexivity | ].
    destruct (Hstore envelope_token [] (JStr "T") 7200%Z
                eq_refl eq_refl eq_refl eq_refl) as (_ & Hin & _).
    destruct (Hin eq_refl eq_refl) as [_ He]. exact He.
  - destruct (C2_token_cache env_direct (cached 7200000001 [envelope_forever]))
      as (Hmiss & _).
    destruct Hmiss as (_ & _ & Hstore);
      [ right; apply Z.ltb_lt; reflexivity | ].
    destruct (Hstore envelope_forever [] (JStr "T2") 1000000000000000%Z
                eq_refl eq_refl eq_refl eq_refl) as (Htok & _ & Hover).
    destruct (Hover (or_introl eq_refl)) as [Hres He].
    cbv zeta. split; [ exact Hres | ]. split; [ exact Htok | exact He ].
Defined.

(** C2 as written has the comparison the other way round: a token
    whose expiry lies at or after the current time would be requested
    again.  The code returns it without a call. *)
Lemma C2_counterexample :
  ~ (forall env m,
       truthy (token m) = false \/ (clock m (ticks m) <= expire_at m)%Z ->
       length (calls_to TENANT_TOKEN_API (sent (snd (TenantToken.__get__ env m))))
       = S (length (calls_to TENANT_TOKEN_API (sent m)))).
Proof.
  intros H.
  specialize (H env_direct (cached 0 [envelope_token])).
  assert (Hpre : truthy (token (cached 0 [envelope_token])) = false
                 \/ (clock (cached 0 [envelope_token])
                       (ticks (cached 0 [envelope_token]))
                     <= expire_at (cached 0 [envelope_token]))%Z).
  { right. apply Z.leb_le. reflexivity. }
  specialize (H Hpre). vm_compute in H. discriminate.
Qed.

(** With a phone configured, the lookup answers three records and the
    second is the first to hold a [user_id]. *)
Lemma C3_recipient_resolution_witness :
  fst (get_open_id env_phone (JStr "T") (cached 0 [envelope_users]))
  = Ok (JStr "ou_7")
  /\ get_open_id env_bare (JStr "T") (cached 0 [envelope_users])
     = (Raise (ValueError unconfigured_message), cached 0 [envelope_users]).
Proof.
  destruct (C3_recipient_resolution env_phone) as (_ & _ & _ & _ & _ & Hfound).
  destruct (C3_recipient_resolution env_bare) as (_ & _ & _ & _ & Hbare & _).
  split.
  - destruct (Hfound (JStr "T") (cached 0 [envelope_users]) envelope_users []
                (JDict [("user_list",
                         JList [JDict [("mobile", JStr "13900000000")];
                                JDict [("user_id", JStr "ou_7");
                                       ("mobile", JStr "13800000000")];
                                JDict [("user_id", JStr "ou_8")]])])
                [JDict [("mobile", JStr "13900000000")];
                 JDict [("user_id", JStr "ou_7"); ("mobile", JStr "13800000000")];
                 JDict [("user_id", JStr "ou_8")]]
                (or_introl eq_refl) eq_refl eq_refl eq_refl eq_refl)
      as (_ & Hfirst & _).
    apply (Hfirst [JDict [("mobile", JStr "13900000000")]]
             (JDict [("user_id", JStr "ou_7"); ("mobile", JStr "13800000000")])
             [JDict [("user_id", JStr "ou_8")]]).
    + reflexivity.
    + constructor; [ | constructor ].
      exists [("mobile", JStr "13900000000")]. split; reflexivity.
    + reflexivity.
  - apply Hbare; reflexivity.
Defined.

(** An envelope with code 5 and the message bad request. *)
Lemma C4_post_envelope_witness :
  replies (cached 0 [envelope_bad]) = [envelope_bad]
  /\ getitem envelope_bad "code" = Ok (JNum 5)
  /\ fst (_post env_direct MESSAGE_API (JStr "T") json_kwargs
            (cached 0 [envelope_bad]))
     = Raise (ValueError "Message failed: bad request").
Proof.
  split; [ reflexivity | ]. split; [ reflexivity | ].
  destruct (C4_post_envelope env_direct MESSAGE_API (JStr "T") json_kwargs
              (cached 0 [envelope_bad]) envelope_bad [] 5%Z eq_refl eq_refl)
    as (_ & Hfail & _).
  apply Hfail; [ discriminate | reflexivity ].
Defined.







(** ** Instances of the further properties *)

Lemma send_text_member : In "send_text" members.
Proof. unfold members. simpl. auto 10. Defined.

(** A text is sent; the recipient is still the one of the construction. *)
Lemma X1_recipient_fixed_witness :
  In "send_text" members
  /\ typed_call "send_text" [AVal (JStr "hi")] = true
  /\ user_id (snd (FeiShuBot.invoke env_direct "send_text" [AVal (JStr "hi")]
                     (cached 0 [envelope_ok])))
     = Some (JStr "ou_42").
Proof.
  split; [ exact send_text_member | ]. split; [ reflexivity | ].
  rewrite (X1_recipient_fixed env_direct "send_text" [AVal (JStr "hi")]
             (cached 0 [envelope_ok]) send_text_member eq_refl).
  reflexivity.
Defined.

(** The phone is looked up at construction. *)
Lemma X2_construction_sets_recipient_witness :
  ENABLE env_phone = true
  /\ exists uid,
       user_id (snd (FeiShuBot.__init__ env_phone
                       (uncached 0 [envelope_token; envelope_users])))
       = Some uid.
Proof.
  split; [ reflexivity | ].
  assert (Hrun : FeiShuBot.__init__ env_phone
                   (uncached 0 [envelope_token; envelope_users])
                 = (Ok tt, snd (FeiShuBot.__init__ env_phone
                                  (uncached 0 [envelope_token; envelope_users]))))
    by (vm_compute; reflexivity).
  destruct (X2_construction_sets_recipient env_phone _ _ eq_refl Hrun)
    as (uid & Huid & _).
  exists uid. exact Huid.
Defined.

(** Raw bytes as the video and no cover. *)
Lemma X4_media_without_cover_witness :
  cv2 env_direct = Some grab_stub
  /\ stream_truthy (Bytes []) = false
  /\ fst (FeiShuBot.send_media env_direct (Bytes [Byte.x00]) (Bytes [])
            (cached 0 [envelope_ok]))
     = Raise (ValueError "Cover must be set when media is not an opened file").
Proof.
  split; [ reflexivity | ]. split; [ reflexivity | ].
  destruct (X4_media_without_cover env_direct grab_stub (Bytes [Byte.x00])
              (Bytes []) (cached 0 [envelope_ok]) eq_refl eq_refl)
    as (Hraw & _).
  rewrite Hraw; [ reflexivity | ]. intros n content. discriminate.
Defined.

Lemma fresh_cached answers : fresh (cached 0 answers).
Proof. split; [ reflexivity | ]. intros i. apply Z.leb_le. reflexivity. Qed.



(** An expired token, and an authentication that is refused. *)
Lemma X7_failed_refresh_witness :
  is_stale (cached 7200000001 [envelope_bad]) = true
  /\ token (snd (TenantToken.__get__ env_direct (cached 7200000001 [envelope_bad])))
     = JStr "T".
Proof.
  split; [ reflexivity | ].
  assert (Hn : 5%Z <> 0%Z) by discriminate.
  destruct (X7_failed_refresh env_direct (cached 7200000001 [envelope_bad])
              envelope_bad [] eq_refl eq_refl) as (Hrefused & _).
  destruct (Hrefused 5%Z "bad request" eq_refl Hn eq_refl) as (_ & Htok & _).
  exact Htok.
Defined.

(** The first request fetches T for 7200 s; the second, at the same
    time, reuses it. *)
Lemma X8_refresh_then_reuse_witness :
  is_stale (uncached 0 [envelope_token]) = true
  /\ fst (TenantToken.__get__ env_direct
            (snd (TenantToken.__get__ env_direct (uncached 0 [envelope_token]))))
     = Ok (JStr "T").
Proof.
  split; [ reflexivity | ].
  destruct (X8_refresh_then_reuse env_direct (uncached 0 [envelope_token])
              envelope_token [] (JStr "T") 7200%Z
              eq_refl eq_refl eq_refl eq_refl eq_refl eq_refl eq_refl eq_refl)
    as (_ & Hnext).
  destruct Hnext as [Hrun _]; [ apply Z.leb_le; reflexivity | ].
  rewrite Hrun. reflexivity.
Defined.

(** A text sent with the cached token. *)
Lemma X11_fresh_token_is_reused_witness :
  fresh (cached 0 [envelope_ok])
  /\ calls_to TENANT_TOKEN_API
       (sent (snd (FeiShuBot.invoke env_direct "send_text" [AVal (JStr "hi")]
                     (cached 0 [envelope_ok]))))
     = [].
Proof.
  split; [ apply fresh_cached | ].
  destruct (X11_fresh_token_is_reused env_direct "send_text" [AVal (JStr "hi")]
              (cached 0 [envelope_ok]) (fresh_cached _)
              (or_intror send_text_member) eq_refl) as (_ & _ & Hauth & _).
  exact Hauth.
Defined.

Lemma card_distinct_keys message header :
  distinct_keys (FeiShuBot.card_content message header).
Proof.
  unfold FeiShuBot.card_content.
  destruct (nonempty header); simpl;
    repeat (constructor; simpl; try (intuition discriminate)).
Qed.


Lemma one_key (k : string) (v : json) : NoDup (map fst [(k, v)]).
Proof. simpl. constructor; [ intros [] | constructor ]. Qed.

(** A file key and an image key. *)
Lemma X13_merged_handles_witness :
  exists content,
    py_or (JDict [("file_key", JStr "file_1")])
          (JDict [("image_key", JStr "img_1")]) = Ok (JDict content)
    /\ dict_get "file_key" content = Some (JStr "file_1")
    /\ dict_get "image_key" content = Some (JStr "img_1").
Proof.
  destruct (X13_merged_handles [("file_key", JStr "file_1")]
              [("image_key", JStr "img_1")] (one_key _ _) (one_key _ _))
    as (content & Hor & _ & Hget).
  exists content. split; [ exact Hor | ].
  split; rewrite Hget; reflexivity.
Defined.

(** Only a phone is configured. *)
Lemma X14_lookup_request_witness :
  exists req body,
    sent (snd (get_open_id env_phone (JStr "T") (cached 0 [envelope_users])))
    = [req]
    /\ kw_json (req_kwargs req) = Some (JDict body)
    /\ dict_get "mobiles" body = Some (JList [JStr "13800000000"])
    /\ dict_get "emails" body = None.
Proof.
  destruct (X14_lookup_request env_phone (JStr "T") (cached 0 [envelope_users])
              (or_introl eq_refl))
    as (req & body & Hsent & _ & _ & Hjson & Hm & He).
  exists req, body. auto.
Defined.
